(** * pyblish-qml host integration: [pyblish_qml/host.py]

    A shallow embedding of the host-integration layer of Pyblish QML and
    the properties of it that the specification states.

    The module keeps its data in one process-wide dictionary, [_state],
    and talks to four collaborators that live outside of it: the pyblish
    callback registry ([pyblish.api]), the IPC layer ([ipc.service],
    [ipc.server]), the Qt splash screen and the host applications.  The
    dictionary and the callback registry are modelled as finite maps held
    in a [World]; what the collaborators answer is read from an [Env].
    Every effect a function has on a collaborator is appended to the
    [trace] of the world, so that statements about the order of effects
    can be made.  Exceptions follow Python 2.7, the interpreter of the
    hosts this file targets: [IOError] and [OSError] are distinct
    classes. *)

From stdpp Require Import base option list gmap strings.

(** ** Python values *)

Inductive Exn :=
  | TypeError | KeyError | ValueError | ImportError | IOError | OSError
  | AssertionError | RuntimeError | AttributeError
  | OtherError (name : string).

#[global] Instance Exn_eq_dec : EqDecision Exn.
Proof. solve_decision. Defined.

(** The modules the host installers import. *)
Inductive PyModule := mod_maya | mod_hdefereval | mod_nuke | mod_hiero | mod_bpy.

#[global] Instance PyModule_eq_dec : EqDecision PyModule.
Proof. solve_decision. Defined.

(** The host namespaces that offer [executeInMainThreadWithResult]:
    [maya.utils], [hdefereval], [nuke] and [hiero.core]. *)
Inductive HostApi := maya_utils | hdefereval_api | nuke_api | hiero_core.

#[global] Instance HostApi_eq_dec : EqDecision HostApi.
Proof. solve_decision. Defined.

(** What [inspect.getargspec] reports of a function. *)
Record ArgSpec := {
  args : list string;
  varargs : option string;
  keywords : option string;
  defaults : option (list string);
}.

#[global] Instance ArgSpec_eq_dec : EqDecision ArgSpec.
Proof. solve_decision. Defined.

(** A function body is either one of the [threaded_wrapper] closures of
    this module (which one is told by the host namespace it closes over)
    or a function supplied by the caller, known by its name only. *)
Inductive Body :=
  | threaded_wrapper (api : HostApi)
  | user_body (name : string).

#[global] Instance Body_eq_dec : EqDecision Body.
Proof. solve_decision. Defined.

Record Function := {
  argspec : ArgSpec;
  body : Body;
}.

#[global] Instance Function_eq_dec : EqDecision Function.
Proof. solve_decision. Defined.

(** Server and splash objects are known by their identity. *)
Record Server := { server_id : nat }.
Record Splash := { splash_id : nat }.

#[global] Instance Server_eq_dec : EqDecision Server.
Proof. solve_decision. Defined.
#[global] Instance Splash_eq_dec : EqDecision Splash.
Proof. solve_decision. Defined.

Inductive Value :=
  | VNone
  | VBool (b : bool)
  | VStr (s : string)
  | VFunction (f : Function)
  | VServer (s : Server).

#[global] Instance Value_eq_dec : EqDecision Value.
Proof. solve_decision. Defined.

(** Python truthiness. *)
Definition truthy (v : Value) : bool :=
  match v with
  | VNone => false
  | VBool b => b
  | VStr s => negb (String.eqb s "")
  | VFunction _ => true
  | VServer _ => true
  end.

(** Arguments of a call: what a dispatch wrapper is handed and what it
    hands on. *)
Inductive PyArg :=
  | AName (name : string)
  | ATuple (items : list string)
  | ADict (items : list (string * string)).

(** A call of [executeInMainThreadWithResult] in namespace [api]. *)
Record MainThreadCall := {
  call_api : HostApi;
  call_positional : list PyArg;
  call_keyword : list (string * string);
}.

(** ** Callbacks, events, the world *)

(** The callbacks this module registers with pyblish.  [on_shown] is a
    closure made anew by every call of [show]; [closure] is its
    identity, [splash] the splash screen it closes over. *)
Inductive Callback :=
  | cb_toggle_instance
  | cb_toggle_plugin
  | cb_on_shown (closure : nat) (splash : option Splash).

#[global] Instance Callback_eq_dec : EqDecision Callback.
Proof. solve_decision. Defined.

Inductive Event :=
  | EStdout (text : string)
  | ERegisterCallback (signal : string) (cb : Callback)
  | EDeregisterCallback (signal : string) (cb : Callback)
  | EStateSet (key : string) (v : Value)
  | EStatePop (key : string)
  | ESetting (name : string) (v : string)
  | EAboutToQuitConnect
  | EAtexitRegister
  | ESplashShow (s : Splash)
  | ESplashClose (s : Splash)
  | ETraceback (e : Exn)
  | ESpawn (s : Server)
  | EProxyShow (s : Server) (settings : gmap string string)
  | EKill (s : Server).

#[global] Instance Event_eq_dec : EqDecision Event.
Proof. solve_decision. Defined.

Record World := {
  _state : gmap string Value;
  _registered_callbacks : gmap string (list Callback);
  settings : gmap string string;
  fresh : nat;
  trace : list Event;
}.

(** The world at import time: nothing stored, nothing registered. *)
Definition initial : World :=
  {| _state := ∅; _registered_callbacks := ∅; settings := ∅;
     fresh := 0; trace := [] |}.

(** What the surroundings answer during one call. *)
Record Env := {
  importable : PyModule → bool;
  rawArgs : list string;
  qt_loaded : bool;
  qapp_instance : bool;
  isfile : string → bool;
  service_ctor : option Exn;
  server_ctor : option Exn;
  proxy_show : Server → option Exn;
  splash_deleted : Splash → bool;
  popen_dead : Server → bool;
}.

(** ** Computations: a world is threaded through, exceptions keep it *)

Inductive Res (A : Type) :=
  | Return (a : A)
  | Raise (e : Exn).
Arguments Return {A} a.
Arguments Raise {A} e.

Definition M (A : Type) : Type := World → Res A * World.

Definition ret {A} (a : A) : M A := λ w, (Return a, w).

Definition bind {A B} (m : M A) (f : A → M B) : M B := λ w,
  match m w with
  | (Return a, w') => f a w'
  | (Raise e, w') => (Raise e, w')
  end.

Declare Scope py_scope.
Delimit Scope py_scope with py.
Notation "x ← y ; z" := (bind y (λ x, z))
  (at level 20, y at level 100, z at level 200, only parsing) : py_scope.
Notation "x ;; z" := (bind x (λ _, z))
  (at level 100, z at level 200, only parsing, right associativity) : py_scope.
Local Open Scope py_scope.

Definition raise {A} (e : Exn) : M A := λ w, (Raise e, w).

(** [try: m except <classes>: h except ...], the clauses tried in order;
    an exception no clause names goes on.  Classes are matched by name:
    the classes named in [Exn] are unrelated by subclassing in Python
    2.7, and a subclass that an [OtherError] may stand for is not
    recognised, so that an exception is said to go uncaught for the named
    classes only. *)
Fixpoint handle {A} (e : Exn) (clauses : list (list Exn * M A)) : M A :=
  match clauses with
  | [] => raise e
  | (classes, h) :: rest => if bool_decide (e ∈ classes) then h else handle e rest
  end.

Definition try_except {A} (m : M A) (clauses : list (list Exn * M A)) : M A :=
  λ w, match m w with
       | (Return a, w') => (Return a, w')
       | (Raise e, w') => handle e clauses w'
       end.

(** [try: m except: h e], the bare handler. *)
Definition try_except_all {A} (m : M A) (h : Exn → M A) : M A :=
  λ w, match m w with
       | (Return a, w') => (Return a, w')
       | (Raise e, w') => h e w'
       end.

Definition log (e : Event) : M unit := λ w,
  (Return (),
   {| _state := _state w; _registered_callbacks := _registered_callbacks w;
      settings := settings w; fresh := fresh w; trace := trace w ++ [e] |}).

Definition with_state (f : gmap string Value → gmap string Value) (w : World) : World :=
  {| _state := f (_state w); _registered_callbacks := _registered_callbacks w;
     settings := settings w; fresh := fresh w; trace := trace w |}.

(** [_state.get(key)] *)
Definition state_get (key : string) : M Value := λ w,
  (Return (default VNone (_state w !! key)), w).

(** [_state[key]] *)
Definition state_item (key : string) : M Value := λ w,
  match _state w !! key with
  | Some v => (Return v, w)
  | None => (Raise KeyError, w)
  end.

(** [_state[key] = v] *)
Definition state_set (key : string) (v : Value) : M unit :=
  log (EStateSet key v);;
  λ w, (Return (), with_state (insert key v) w).

(** [_state.pop(key)] *)
Definition state_pop (key : string) : M Value := λ w,
  match _state w !! key with
  | Some v => (log (EStatePop key);; ret v) (with_state (delete key) w)
  | None => (Raise KeyError, w)
  end.

(** ** The dispatch wrapper *)

(** [inspect.getargspec(wrapper)] of a Python function; what the library
    does with an object that is no function is not part of this module. *)
Definition getargspec (wrapper : Function) : ArgSpec := argspec wrapper.

Definition any (l : list bool) : bool := existsb id l.

Definition register_dispatch_wrapper (wrapper : Function) : M unit :=
  let signature := getargspec wrapper in
  if any [negb (Nat.eqb (length (args signature)) 1);
          bool_decide (varargs signature = None);
          bool_decide (keywords signature = None)]
  then raise TypeError
  else state_set "dispatchWrapper" (VFunction wrapper).

Definition deregister_dispatch_wrapper : M unit :=
  state_pop "dispatchWrapper";; ret ().

Definition dispatch_wrapper : M Value := state_get "dispatchWrapper".

Definition current_server : M Value := state_get "currentServer".

(** ** The pyblish callback registry

    [pyblish.api] is not part of this repository.  Its registry is a
    dictionary from a signal to the list of its callbacks:
    [register_callback] appends to the list of the signal,
    [deregister_callback] is [_registered_callbacks[signal].remove(callback)]
    and so raises [KeyError] for a signal that was never registered and
    [ValueError] for a callback that is not in the list. *)

Definition with_callbacks
    (f : gmap string (list Callback) → gmap string (list Callback)) (w : World) : World :=
  {| _state := _state w; _registered_callbacks := f (_registered_callbacks w);
     settings := settings w; fresh := fresh w; trace := trace w |}.

(** [list.remove]: the first occurrence goes. *)
Fixpoint list_remove (cb : Callback) (l : list Callback) : list Callback :=
  match l with
  | [] => []
  | x :: l' => if decide (x = cb) then l' else x :: list_remove cb l'
  end.

Definition register_callback (signal : string) (cb : Callback) : M unit :=
  log (ERegisterCallback signal cb);;
  λ w, (Return (),
        with_callbacks
          (insert signal (default [] (_registered_callbacks w !! signal) ++ [cb])) w).

Definition deregister_callback (signal : string) (cb : Callback) : M unit :=
  log (EDeregisterCallback signal cb);;
  λ w, match _registered_callbacks w !! signal with
       | None => (Raise KeyError, w)
       | Some l =>
           if bool_decide (cb ∈ l)
           then (Return (), with_callbacks (insert signal (list_remove cb l)) w)
           else (Raise ValueError, w)
       end.

(** ** Small effects *)

Definition newline : string := String (Ascii.ascii_of_nat 10) "".

(** [sys.stdout.write(text)] *)
Definition stdout_write (text : string) : M unit := log (EStdout text).

(** [print(text)] *)
Definition print (text : string) : M unit := log (EStdout (text +:+ newline)).

(** [settings.<name> = v] *)
Definition settings_set (name v : string) : M unit :=
  log (ESetting name v);;
  λ w, (Return (),
        {| _state := _state w; _registered_callbacks := _registered_callbacks w;
           settings := <[name:=v]> (settings w); fresh := fresh w; trace := trace w |}).

(** [settings.to_dict()] *)
Definition settings_to_dict : M (gmap string string) := λ w, (Return (settings w), w).

(** A new object identity. *)
Definition allocate : M nat := λ w,
  (Return (fresh w),
   {| _state := _state w; _registered_callbacks := _registered_callbacks w;
      settings := settings w; fresh := S (fresh w); trace := trace w |}).

(** [import m] *)
Definition import_module (env : Env) (m : PyModule) : M unit :=
  if importable env m then ret () else raise ImportError.

(** ** Toggling *)

(** A pyblish instance: its [data] dictionary and its other attributes. *)
Record Instance := {
  data : gmap string Value;
  instance_attrs : gmap string Value;
}.

(** A pyblish plug-in, as the dictionary of its attributes. *)
Record Plugin := {
  plugin_attrs : gmap string Value;
}.

Definition _toggle_instance (instance : Instance) (new_value old_value : Value) : Instance :=
  {| data := <["publish" := new_value]> (data instance);
     instance_attrs := instance_attrs instance |}.

Definition _toggle_plugin (plugin : Plugin) (new_value old_value : Value) : Plugin :=
  {| plugin_attrs := <["active" := new_value]> (plugin_attrs plugin) |}.

Definition install_callbacks : M unit :=
  register_callback "instanceToggled" cb_toggle_instance;;
  register_callback "pluginToggled" cb_toggle_plugin.

Definition uninstall_callbacks : M unit :=
  deregister_callback "instanceToggled" cb_toggle_instance;;
  deregister_callback "pluginToggled" cb_toggle_plugin.

(** ** Executables *)

Definition register_python_executable (env : Env) (path : string) : M unit :=
  (if isfile env path then ret () else raise AssertionError);;
  state_set "pythonExecutable" (VStr path).

Definition registered_python_executable : M Value := state_get "pythonExecutable".

Definition register_pyqt5 (path : string) : M unit := state_set "pyqt5" (VStr path).

(** ** Host exit *)

(** [server.popen.kill()]; a value that is no server has no [popen]. *)
Definition popen_kill (env : Env) (server : Value) : M unit :=
  match server with
  | VServer s =>
      log (EKill s);;
      if popen_dead env s then raise OSError else ret ()
  | _ => raise AttributeError
  end.

Definition _on_application_quit (env : Env) : M unit :=
  try_except
    (server ← state_item "currentServer"; popen_kill env server)
    [ ([KeyError], ret ())   (* No server started *)
    ; ([OSError], ret ()) ]  (* Already dead *).

Definition _connect_application_quit (env : Env) : M unit :=
  if qt_loaded env then
    if qapp_instance env then log EAboutToQuitConnect
    else log EAtexitRegister
  else ret ().

(** ** Host installers *)

(** The signature [(func, *args, **kwargs)] of every [threaded_wrapper]. *)
Definition threaded_wrapper_argspec : ArgSpec :=
  {| args := ["func"]; varargs := Some "args"; keywords := Some "kwargs";
     defaults := None |}.

Definition make_threaded_wrapper (api : HostApi) : Function :=
  {| argspec := threaded_wrapper_argspec; body := threaded_wrapper api |}.

(** Calling [f(func, *args, **kwargs)]: the [threaded_wrapper] of Maya and
    of Houdini hand the arguments on unpacked, those of Nuke and of Hiero
    hand on the tuple and the dictionary; nothing is known of what a
    function of the caller does. *)
Definition call_function (f : Function) (func : string) (args : list string)
    (kwargs : list (string * string)) : option MainThreadCall :=
  match body f with
  | threaded_wrapper maya_utils =>
      Some {| call_api := maya_utils;
              call_positional := AName func :: map AName args;
              call_keyword := kwargs |}
  | threaded_wrapper hdefereval_api =>
      Some {| call_api := hdefereval_api;
              call_positional := AName func :: map AName args;
              call_keyword := kwargs |}
  | threaded_wrapper nuke_api =>
      Some {| call_api := nuke_api;
              call_positional := [AName func; ATuple args; ADict kwargs];
              call_keyword := [] |}
  | threaded_wrapper hiero_core =>
      Some {| call_api := hiero_core;
              call_positional := [AName func; ATuple args; ADict kwargs];
              call_keyword := [] |}
  | user_body _ => None
  end.

(** [x in nuke.rawArgs] *)
Definition in_rawArgs (env : Env) (x : string) : bool := bool_decide (x ∈ rawArgs env).

Definition _install_maya (env : Env) : M unit :=
  import_module env mod_maya;;
  let threaded_wrapper := make_threaded_wrapper maya_utils in
  stdout_write ("Setting up Pyblish QML in Maya" +:+ newline);;
  register_dispatch_wrapper threaded_wrapper;;
  _connect_application_quit env;;
  settings_set "ContextLabel" "Maya";;
  settings_set "WindowTitle" "Pyblish (Maya)".

Definition _install_houdini (env : Env) : M unit :=
  import_module env mod_hdefereval;;
  let threaded_wrapper := make_threaded_wrapper hdefereval_api in
  stdout_write ("Setting up Pyblish QML in Houdini" +:+ newline);;
  register_dispatch_wrapper threaded_wrapper;;
  _connect_application_quit env;;
  settings_set "ContextLabel" "Houdini";;
  settings_set "WindowTitle" "Pyblish (Houdini)".

Definition _install_nuke (env : Env) : M unit :=
  import_module env mod_nuke;;
  (if in_rawArgs env "--hiero" || in_rawArgs env "--studio"
   then raise ImportError else ret ());;
  let threaded_wrapper := make_threaded_wrapper nuke_api in
  stdout_write ("Setting up Pyblish QML in Nuke" +:+ newline);;
  register_dispatch_wrapper threaded_wrapper;;
  _connect_application_quit env;;
  settings_set "ContextLabel" "Nuke";;
  settings_set "WindowTitle" "Pyblish (Nuke)".

Definition _install_hiero (env : Env) : M unit :=
  import_module env mod_hiero;;
  import_module env mod_nuke;;
  (if negb (in_rawArgs env "--hiero") then raise ImportError else ret ());;
  let threaded_wrapper := make_threaded_wrapper hiero_core in
  stdout_write ("Setting up Pyblish QML in Hiero" +:+ newline);;
  register_dispatch_wrapper threaded_wrapper;;
  _connect_application_quit env;;
  settings_set "ContextLabel" "Hiero";;
  settings_set "WindowTitle" "Pyblish (Hiero)".

Definition _install_blender (env : Env) : M unit :=
  import_module env mod_bpy;;
  stdout_write ("Setting up Pyblish QML in Blender" +:+ newline);;
  _connect_application_quit env;;
  settings_set "ContextLabel" "Blender";;
  settings_set "WindowTitle" "Pyblish (Blender)".

(** [for install in installers: try: install() except ImportError: pass
    else: break] *)
Fixpoint for_each_installer (env : Env) (installers : list (Env → M unit)) : M unit :=
  match installers with
  | [] => ret ()
  | install :: rest =>
      λ w, match install env w with
           | (Return _, w') => (Return (), w')
           | (Raise e, w') =>
               if bool_decide (e = ImportError)
               then for_each_installer env rest w'
               else (Raise e, w')
           end
  end.

Definition install_host (env : Env) : M unit :=
  for_each_installer env
    [_install_maya; _install_houdini; _install_nuke; _install_hiero; _install_blender].

(** ** Install, uninstall *)

Definition uninstall : M unit :=
  uninstall_callbacks;;
  stdout_write ("Pyblish QML shutdown successful." +:+ newline).

Definition install (env : Env) : M unit :=
  installed ← state_get "installed";
  (if truthy installed
   then stdout_write ("Already installed, uninstalling.." +:+ newline);; uninstall
   else ret ());;
  install_callbacks;;
  install_host env;;
  state_set "installed" (VBool true).

(** ** Showing the GUI *)

Definition _show_splash (env : Env) : M (option Splash) :=
  if qt_loaded env && qapp_instance env then
    n ← allocate;
    let splash := {| splash_id := n |} in
    log (ESplashShow splash);;
    ret (Some splash)
  else ret None.

(** [splash.close()]: [None] has no [close]; the widget deletes itself on
    close, and closing a deleted widget is a [RuntimeError]. *)
Definition splash_close (env : Env) (splash : option Splash) : M unit :=
  match splash with
  | None => raise AttributeError
  | Some s =>
      if splash_deleted env s then raise RuntimeError else log (ESplashClose s)
  end.

Definition on_shown (env : Env) (closure : nat) (splash : option Splash) : M Value :=
  try_except (splash_close env splash)
    [ ([RuntimeError; AttributeError], ret ()) ];;
  deregister_callback "pyblishQmlShown" (cb_on_shown closure splash);;
  ret VNone.

(** [ipc.service.Service()] *)
Definition Service (env : Env) : M unit :=
  match service_ctor env with
  | Some e => raise e
  | None => ret ()
  end.

(** [ipc.server.Server(service)]: starts the GUI process. *)
Definition Server_ (env : Env) : M Server :=
  match server_ctor env with
  | Some e => raise e
  | None =>
      n ← allocate;
      let server := {| server_id := n |} in
      log (ESpawn server);;
      ret server
  end.

(** [ipc.server.Proxy(server).show(settings)]; a value that is no server
    cannot be talked to. *)
Definition Proxy_show (env : Env) (server : Value) (settings : gmap string string) : M unit :=
  match server with
  | VServer s =>
      log (EProxyShow s settings);;
      match proxy_show env s with
      | Some e => raise e
      | None => ret ()
      end
  | _ => raise AttributeError
  end.

Definition show (env : Env) : M Value :=
  (* Automatically install if not already installed. *)
  installed ← state_get "installed";
  (if negb (truthy installed) then install env else ret ());;
  (* Show existing GUI *)
  current ← state_get "currentServer";
  returned ←
    (if truthy current then
       server ← state_item "currentServer";
       try_except
         (d ← settings_to_dict; Proxy_show env server d;; ret (Some server))
         [ ([IOError],
            (* The running instance has already been closed. *)
            state_pop "currentServer";; ret None) ]
     else ret None);
  match returned with
  | Some server => ret server
  | None =>
      splash ← _show_splash env;
      closure ← allocate;
      let callback := ("pyblishQmlShown", cb_on_shown closure splash) in
      register_callback callback.1 callback.2;;
      constructed ←
        try_except_all
          (Service env;; server ← Server_ env; ret (Some server))
          (* If for some reason, the GUI fails to show. *)
          (λ e, log (ETraceback e);; ret None);
      match constructed with
      | None => on_shown env closure splash
      | Some server =>
          d ← settings_to_dict;
          Proxy_show env (VServer server) d;;
          (* Store reference to server for future calls *)
          state_set "currentServer" (VServer server);;
          print "Success. QML server available as pyblish_qml.api.current_server()";;
          ret (VServer server)
      end
  end.

(** ** Public calls and the worlds they lead to *)

Inductive Call :=
  | call_register_dispatch_wrapper (wrapper : Function)
  | call_deregister_dispatch_wrapper
  | call_dispatch_wrapper
  | call_current_server
  | call_install
  | call_uninstall
  | call_show
  | call_install_callbacks
  | call_uninstall_callbacks
  | call_register_python_executable (path : string)
  | call_registered_python_executable
  | call_register_pyqt5 (path : string)
  | call_install_host
  | call_on_application_quit.

(** One call, whatever it returns or raises, and where it leaves the world. *)
Definition run (env : Env) (c : Call) (w : World) : World :=
  match c with
  | call_register_dispatch_wrapper wrapper => (register_dispatch_wrapper wrapper w).2
  | call_deregister_dispatch_wrapper => (deregister_dispatch_wrapper w).2
  | call_dispatch_wrapper => (dispatch_wrapper w).2
  | call_current_server => (current_server w).2
  | call_install => (install env w).2
  | call_uninstall => (uninstall w).2
  | call_show => (show env w).2
  | call_install_callbacks => (install_callbacks w).2
  | call_uninstall_callbacks => (uninstall_callbacks w).2
  | call_register_python_executable path => (register_python_executable env path w).2
  | call_registered_python_executable => (registered_python_executable w).2
  | call_register_pyqt5 path => (register_pyqt5 path w).2
  | call_install_host => (install_host env w).2
  | call_on_application_quit => (_on_application_quit env w).2
  end.

Definition exec (calls : list (Env * Call)) (w : World) : World :=
  foldl (λ w c, run c.1 c.2 w) w calls.

(** The signature [(func, *args, **kwargs)]. *)
Definition documented_shape (wrapper : Function) : Prop :=
  length (args (getargspec wrapper)) = 1
  ∧ varargs (getargspec wrapper) ≠ None
  ∧ keywords (getargspec wrapper) ≠ None.

#[global] Instance documented_shape_dec wrapper : Decision (documented_shape wrapper).
Proof. unfold documented_shape. apply _. Defined.


(** ** Hosts, in the order [install_host] tries them *)

Inductive Host := Maya | Houdini | Nuke | Hiero | Blender.

#[global] Instance Host_eq_dec : EqDecision Host.
Proof. solve_decision. Defined.

Definition hosts_in_order : list Host := [Maya; Houdini; Nuke; Hiero; Blender].

Definition installer (h : Host) : Env → M unit :=
  match h with
  | Maya => _install_maya
  | Houdini => _install_houdini
  | Nuke => _install_nuke
  | Hiero => _install_hiero
  | Blender => _install_blender
  end.

(** The surroundings in which the installer of a host goes through. *)
Definition supported (env : Env) (h : Host) : bool :=
  match h with
  | Maya => importable env mod_maya
  | Houdini => importable env mod_hdefereval
  | Nuke =>
      importable env mod_nuke
      && negb (in_rawArgs env "--hiero" || in_rawArgs env "--studio")
  | Hiero =>
      importable env mod_hiero && importable env mod_nuke && in_rawArgs env "--hiero"
  | Blender => importable env mod_bpy
  end.

Definition first_supported (env : Env) : option Host :=
  List.find (supported env) hosts_in_order.

Definition host_label (h : Host) : string :=
  match h with
  | Maya => "Maya"
  | Houdini => "Houdini"
  | Nuke => "Nuke"
  | Hiero => "Hiero"
  | Blender => "Blender"
  end.

(** The namespace whose [executeInMainThreadWithResult] a host offers. *)
Definition host_api (h : Host) : option HostApi :=
  match h with
  | Maya => Some maya_utils
  | Houdini => Some hdefereval_api
  | Nuke => Some nuke_api
  | Hiero => Some hiero_core
  | Blender => None
  end.

Definition setup_line (h : Host) : string :=
  "Setting up Pyblish QML in " +:+ host_label h +:+ newline.

Definition connect_trace (env : Env) : list Event :=
  if qt_loaded env then
    if qapp_instance env then [EAboutToQuitConnect] else [EAtexitRegister]
  else [].

(** What the installer of [h] does when it goes through. *)
Definition host_trace (env : Env) (h : Host) : list Event :=
  [EStdout (setup_line h)]
  ++ match host_api h with
     | Some api => [EStateSet "dispatchWrapper" (VFunction (make_threaded_wrapper api))]
     | None => []
     end
  ++ connect_trace env
  ++ [ESetting "ContextLabel" (host_label h);
      ESetting "WindowTitle" ("Pyblish (" +:+ host_label h +:+ ")")].

Definition host_world (env : Env) (h : Host) (w : World) : World :=
  {| _state :=
       match host_api h with
       | Some api => <["dispatchWrapper" := VFunction (make_threaded_wrapper api)]> (_state w)
       | None => _state w
       end;
     _registered_callbacks := _registered_callbacks w;
     settings :=
       <["WindowTitle" := "Pyblish (" +:+ host_label h +:+ ")"]>
         (<["ContextLabel" := host_label h]> (settings w));
     fresh := fresh w;
     trace := trace w ++ host_trace env h |}.

(** The hosts whose set-up line a trace holds. *)
Definition hosts_set_up (t : list Event) : list Host :=
  omap (λ e, match e with
             | EStdout text => List.find (λ h, String.eqb text (setup_line h)) hosts_in_order
             | _ => None
             end) t.

(** The events a call added to the trace. *)
Definition added (w w' : World) : list Event := drop (length (trace w)) (trace w').

(** ** Traces of install and uninstall *)

Definition callbacks_trace : list Event :=
  [ERegisterCallback "instanceToggled" cb_toggle_instance;
   ERegisterCallback "pluginToggled" cb_toggle_plugin].

Definition host_install_trace (env : Env) : list Event :=
  match first_supported env with
  | Some h => host_trace env h
  | None => []
  end.

Definition install_trace (env : Env) : list Event :=
  callbacks_trace ++ host_install_trace env ++ [EStateSet "installed" (VBool true)].


Definition registered (signal : string) (cb : Callback) (w : World) : Prop :=
  cb ∈ default [] (_registered_callbacks w !! signal).

Definition toggles_registered (w : World) : Prop :=
  registered "instanceToggled" cb_toggle_instance w
  ∧ registered "pluginToggled" cb_toggle_plugin w.

(** ** The two halves of [show] *)

Definition ensure_installed (env : Env) : M unit :=
  installed ← state_get "installed";
  if negb (truthy installed) then install env else ret ().

Definition show_gui (env : Env) : M Value :=
  current ← state_get "currentServer";
  returned ←
    (if truthy current then
       server ← state_item "currentServer";
       try_except
         (d ← settings_to_dict; Proxy_show env server d;; ret (Some server))
         [ ([IOError], state_pop "currentServer";; ret None) ]
     else ret None);
  match returned with
  | Some server => ret server
  | None =>
      splash ← _show_splash env;
      closure ← allocate;
      let callback := ("pyblishQmlShown", cb_on_shown closure splash) in
      register_callback callback.1 callback.2;;
      constructed ←
        try_except_all
          (Service env;; server ← Server_ env; ret (Some server))
          (λ e, log (ETraceback e);; ret None);
      match constructed with
      | None => on_shown env closure splash
      | Some server =>
          d ← settings_to_dict;
          Proxy_show env (VServer server) d;;
          state_set "currentServer" (VServer server);;
          print "Success. QML server available as pyblish_qml.api.current_server()";;
          ret (VServer server)
      end
  end.

(** ** Invariants of the state dictionary *)

Definition installed_flag (st : gmap string Value) : bool :=
  truthy (default VNone (st !! "installed")).

(** A server is referred to under ["currentServer"] only. *)
Definition servers_under_current (st : gmap string Value) : Prop :=
  ∀ k s, st !! k = Some (VServer s) → k = "currentServer".

Definition current_is_server (st : gmap string Value) : Prop :=
  ∀ v, st !! "currentServer" = Some v → ∃ s, v = VServer s.

Definition current_implies_installed (st : gmap string Value) : Prop :=
  is_Some (st !! "currentServer") → installed_flag st = true.

Definition well_formed (st : gmap string Value) : Prop :=
  servers_under_current st ∧ current_is_server st ∧ current_implies_installed st.

Definition reachable (w : World) : Prop := ∃ calls, w = exec calls initial.

(** ** Relations between the dictionary before and after a call *)

Definition steps (Rs : relation (gmap string Value)) {A} (m : M A) : Prop :=
  ∀ w, Rs (_state w) (_state (m w).2).

Definition keeps (key : string) : relation (gmap string Value) :=
  λ st st', st' !! key = st !! key.

Definition preserves (P : gmap string Value → Prop) : relation (gmap string Value) :=
  λ st st', P st → P st'.

Definition keeps_installed : relation (gmap string Value) :=
  λ st st', installed_flag st = true → well_formed st →
            installed_flag st' = true ∧ well_formed st'.

Definition is_register_python_executable (c : Call) : bool :=
  match c with
  | call_register_python_executable _ => true
  | _ => false
  end.

Definition is_spawn (e : Event) : bool :=
  match e with
  | ESpawn _ => true
  | _ => false
  end.

Definition is_store_current (e : Event) : bool :=
  match e with
  | EStateSet key _ => String.eqb key "currentServer"
  | _ => false
  end.

(** ** What a call may write, what [show] allocates *)

(** The keys of the state dictionary a call may write or remove. *)
Definition may_write (c : Call) : list string :=
  match c with
  | call_register_dispatch_wrapper _ => ["dispatchWrapper"]
  | call_deregister_dispatch_wrapper => ["dispatchWrapper"]
  | call_install => ["dispatchWrapper"; "installed"]
  | call_show => ["dispatchWrapper"; "installed"; "currentServer"]
  | call_register_python_executable _ => ["pythonExecutable"]
  | call_register_pyqt5 _ => ["pyqt5"]
  | call_install_host => ["dispatchWrapper"]
  | _ => []
  end.

Definition is_show (c : Call) : bool :=
  match c with
  | call_show => true
  | _ => false
  end.

(** The world a first [install()] leaves. *)
Definition installed_world (env : Env) (w : World) : World :=
  (state_set "installed" (VBool true) (install_host env (install_callbacks w).2).2).2.

(** The splash screen, the [on_shown] closure and the server that
    [show()] makes when it starts in [w] with no server to reuse. *)
Definition splash_of (env : Env) (w : World) : option Splash :=
  if qt_loaded env && qapp_instance env then Some {| splash_id := fresh w |} else None.

Definition closure_of (env : Env) (w : World) : nat :=
  match splash_of env w with
  | Some _ => S (fresh w)
  | None => fresh w
  end.

Definition server_of (env : Env) (w : World) : Server :=
  {| server_id := S (closure_of env w) |}.

Definition shown_callback (env : Env) (w : World) : Callback :=
  cb_on_shown (closure_of env w) (splash_of env w).

Definition splash_trace (env : Env) (w : World) : list Event :=
  match splash_of env w with
  | Some splash => [ESplashShow splash]
  | None => []
  end.

Definition close_trace (env : Env) (splash : option Splash) : list Event :=
  match splash with
  | Some s => if splash_deleted env s then [] else [ESplashClose s]
  | None => []
  end.

(** The exception, if any, that constructing the service and then the
    server raises. *)
Definition construction_error (env : Env) : option Exn :=
  match service_ctor env with
  | Some e => Some e
  | None => server_ctor env
  end.

Definition success_line : string :=
  "Success. QML server available as pyblish_qml.api.current_server()" +:+ newline.

(** [w] with the events [t] added to its trace. *)
Definition emit (t : list Event) (w : World) : World :=
  {| _state := _state w; _registered_callbacks := _registered_callbacks w;
     settings := settings w; fresh := fresh w; trace := trace w ++ t |}.

(** The world after a server that is gone was asked to show and its entry
    was removed. *)
Definition popped_world (s : Server) (w : World) : World :=
  emit [EProxyShow s (settings w); EStatePop "currentServer"]
    (with_state (delete "currentServer") w).

(** What [show] has done when it comes to the servers: the install, if
    there was none before. *)
Definition ensured_world (env : Env) (w : World) : World :=
  if installed_flag (_state w) then w else installed_world env w.

Definition ensured_trace (env : Env) (w : World) : list Event :=
  if installed_flag (_state w) then [] else install_trace env.

(** An event that neither starts a server process nor stores a server. *)
Definition quiet (e : Event) : Prop := is_spawn e = false ∧ is_store_current e = false.

(** ** Surroundings to run the module in *)

(** Maya with its Qt application; the GUI process starts and answers. *)
Definition maya_env : Env :=
  {| importable := λ m, bool_decide (m = mod_maya);
     rawArgs := [];
     qt_loaded := true;
     qapp_instance := true;
     isfile := λ path, String.eqb path "/usr/bin/python";
     service_ctor := None;
     server_ctor := None;
     proxy_show := λ _, None;
     splash_deleted := λ _, false;
     popen_dead := λ _, false |}.

(** Maya after the GUI process has gone away. *)
Definition maya_gone_env : Env :=
  {| importable := λ m, bool_decide (m = mod_maya);
     rawArgs := [];
     qt_loaded := true;
     qapp_instance := true;
     isfile := λ path, String.eqb path "/usr/bin/python";
     service_ctor := None;
     server_ctor := None;
     proxy_show := λ _, Some IOError;
     splash_deleted := λ _, true;
     popen_dead := λ _, true |}.

(** Blender, where the server cannot be started. *)
Definition blender_broken_env : Env :=
  {| importable := λ m, bool_decide (m = mod_bpy);
     rawArgs := [];
     qt_loaded := false;
     qapp_instance := false;
     isfile := λ _, false;
     service_ctor := None;
     server_ctor := Some (OtherError "OSError");
     proxy_show := λ _, None;
     splash_deleted := λ _, false;
     popen_dead := λ _, false |}.

(** The world after a first [show()] in Maya, and the server it made. *)
Definition maya_shown : World := (show maya_env initial).2.

Definition maya_server : Server := {| server_id := 2 |}.

(** ** The splash screen: [pyblish_qml/splash.py]

    Of the widget, the counter and the text of its label; the rest of
    [Splash.__init__] is layout in Qt. *)

Record SplashWidget := {
  count : Z;
  label : string;
}.

(** [s * n] on strings; nothing is left of it for [n <= 0]. *)
Fixpoint string_mul (s : string) (n : nat) : string :=
  match n with
  | O => ""
  | S n' => s +:+ string_mul s n'
  end.

Definition animate (self : SplashWidget) : SplashWidget :=
  {| label := "loading" +:+ string_mul "." (Z.to_nat (count self));
     count := (count self + 1) `mod` 4 |}.

(** [Splash()]: the counter starts at zero, the label is empty, and
    [__init__] ends with a first [animate()]. *)
Definition Splash_init : SplashWidget :=
  animate {| count := 0; label := "" |}.

(** The widget after the timer has fired [n] times. *)
Definition after_ticks (n : nat) : SplashWidget := Nat.iter n animate Splash_init.

(** ** More to say about traces *)

Definition is_quit_hook (e : Event) : bool :=
  match e with
  | EAboutToQuitConnect | EAtexitRegister => true
  | _ => false
  end.

Definition is_kill (e : Event) : bool :=
  match e with
  | EKill _ => true
  | _ => false
  end.

Definition is_stdout (e : Event) : bool :=
  match e with
  | EStdout _ => true
  | _ => false
  end.

(** The callbacks under a signal, none for a signal that is not known. *)
Definition callbacks_of (signal : string) (w : World) : list Callback :=
  default [] (_registered_callbacks w !! signal).

(** The wrapper the first supported host brings, if it brings one. *)
Definition host_wrapper (env : Env) : option Function :=
  match first_supported env with
  | Some h => make_threaded_wrapper <$> host_api h
  | None => None
  end.

(** The world after [install()] and then [uninstall()] in Maya. *)
Definition maya_uninstalled : World :=
  exec [(maya_env, call_install); (maya_env, call_uninstall)] initial.

(** A wrapper of the caller that takes the function only. *)
Definition narrow_wrapper : Function :=
  {| argspec := {| args := ["func"]; varargs := None; keywords := None; defaults := None |};
     body := user_body "narrow" |}.

(** A wrapper of the caller with the documented signature. *)
Definition user_wrapper : Function :=
  {| argspec := threaded_wrapper_argspec; body := user_body "deferred" |}.

(** Maya, where the new server does not answer the show call. *)
Definition maya_mute_env : Env :=
  {| importable := λ m, bool_decide (m = mod_maya);
     rawArgs := [];
     qt_loaded := true;
     qapp_instance := true;
     isfile := λ _, false;
     service_ctor := None;
     server_ctor := None;
     proxy_show := λ _, Some (OtherError "socket.timeout");
     splash_deleted := λ _, false;
     popen_dead := λ _, false |}.

Definition is_splash_event (e : Event) : bool :=
  match e with
  | ESplashShow _ | ESplashClose _ => true
  | _ => false
  end.

(** Blender as it comes, without Qt; the GUI process starts and answers. *)
Definition blender_env : Env :=
  {| importable := λ m, bool_decide (m = mod_bpy);
     rawArgs := [];
     qt_loaded := false;
     qapp_instance := false;
     isfile := λ _, false;
     service_ctor := None;
     server_ctor := None;
     proxy_show := λ _, None;
     splash_deleted := λ _, false;
     popen_dead := λ _, false |}.

(** Houdini, Nuke and Hiero, each with its Qt application; the GUI
    process starts and answers. *)
Definition houdini_env : Env :=
  {| importable := λ m, bool_decide (m = mod_hdefereval);
     rawArgs := [];
     qt_loaded := true;
     qapp_instance := true;
     isfile := λ _, false;
     service_ctor := None;
     server_ctor := None;
     proxy_show := λ _, None;
     splash_deleted := λ _, false;
     popen_dead := λ _, false |}.

Definition nuke_env : Env :=
  {| importable := λ m, bool_decide (m = mod_nuke);
     rawArgs := ["-t"];
     qt_loaded := true;
     qapp_instance := true;
     isfile := λ _, false;
     service_ctor := None;
     server_ctor := None;
     proxy_show := λ _, None;
     splash_deleted := λ _, false;
     popen_dead := λ _, false |}.

Definition hiero_env : Env :=
  {| importable := λ m, bool_decide (m = mod_hiero) || bool_decide (m = mod_nuke);
     rawArgs := ["--hiero"];
     qt_loaded := true;
     qapp_instance := true;
     isfile := λ _, false;
     service_ctor := None;
     server_ctor := None;
     proxy_show := λ _, None;
     splash_deleted := λ _, false;
     popen_dead := λ _, false |}.

(** Maya, where the show call of a server fails inside the proxy. *)
Definition maya_confused_env : Env :=
  {| importable := λ m, bool_decide (m = mod_maya);
     rawArgs := [];
     qt_loaded := true;
     qapp_instance := true;
     isfile := λ _, false;
     service_ctor := None;
     server_ctor := None;
     proxy_show := λ _, Some RuntimeError;
     splash_deleted := λ _, false;
     popen_dead := λ _, false |}.

(** The built-in exceptions that are neither [IOError] nor a subclass of
    it, in Python 2 as in Python 3 (where [IOError] is [OSError]). *)
Definition plain_error (e : Exn) : bool :=
  match e with
  | TypeError | KeyError | ValueError | ImportError
  | AssertionError | RuntimeError | AttributeError => true
  | IOError | OSError | OtherError _ => false
  end.

(** * Properties *)

(** ** How computations move the state dictionary

    A reflexive and transitive relation [Rs] between the dictionary before
    and after is kept by a computation when each of its writes keeps it.
    The lemmas follow the shape of the computations. *)

Ltac unfold_host :=
  unfold show, show_gui, ensure_installed, install, uninstall, install_callbacks,
    uninstall_callbacks, install_host, on_shown, _show_splash, Service, Server_,
    Proxy_show, print, stdout_write, splash_close, _on_application_quit, popen_kill,
    _install_maya, _install_houdini, _install_nuke, _install_hiero, _install_blender,
    import_module, _connect_application_quit, register_dispatch_wrapper,
    deregister_dispatch_wrapper, dispatch_wrapper, current_server,
    register_python_executable, registered_python_executable, register_pyqt5.

Lemma show_split env w : show env w = bind (ensure_installed env) (λ _, show_gui env) w.
Proof.
  unfold show, ensure_installed, show_gui, bind, state_get. simpl.
  destruct (negb _); [|done].
  by destruct (install env w) as [[[]|e] w1].
Qed.

Section Steps.
Context (Rs : relation (gmap string Value)) `{PreOrder0 : !PreOrder Rs}.

Local Abbreviation moves := (steps Rs).

Lemma steps_ret {A} (a : A) : moves (ret a).
Proof. intros w. reflexivity. Qed.

Lemma steps_raise {A} e : moves (@raise A e).
Proof. intros w. reflexivity. Qed.

Lemma steps_bind {A B} (m : M A) (f : A → M B) :
  moves m → (∀ a, moves (f a)) → moves (bind m f).
Proof.
  intros Hm Hf w. unfold bind. specialize (Hm w).
  destruct (m w) as [[a|e] w']; simpl in *; [|done].
  etrans; [exact Hm | apply Hf].
Qed.

Lemma steps_handle {A} e (clauses : list (list Exn * M A)) :
  Forall (λ c, moves c.2) clauses → moves (handle e clauses).
Proof.
  induction 1 as [|[classes h] rest Hh _ IH]; simpl.
  - apply steps_raise.
  - case_bool_decide; [exact Hh | exact IH].
Qed.

Lemma steps_try_except {A} (m : M A) clauses :
  moves m → Forall (λ c, moves c.2) clauses → moves (try_except m clauses).
Proof.
  intros Hm Hc w. unfold try_except. specialize (Hm w).
  destruct (m w) as [[a|e] w']; simpl in *; [done|].
  etrans; [exact Hm | by apply steps_handle].
Qed.

Lemma steps_try_except_all {A} (m : M A) (h : Exn → M A) :
  moves m → (∀ e, moves (h e)) → moves (try_except_all m h).
Proof.
  intros Hm Hh w. unfold try_except_all. specialize (Hm w).
  destruct (m w) as [[a|e] w']; simpl in *; [done|].
  etrans; [exact Hm | apply Hh].
Qed.

Lemma steps_log e : moves (log e).
Proof. intros w. reflexivity. Qed.

Lemma steps_state_get key : moves (state_get key).
Proof. intros w. reflexivity. Qed.

Lemma steps_state_item key : moves (state_item key).
Proof. intros w. unfold state_item. case_match; reflexivity. Qed.

Lemma steps_state_set key v :
  (∀ st, Rs st (<[key:=v]> st)) → moves (state_set key v).
Proof. intros H w. apply H. Qed.

Lemma steps_state_pop key :
  (∀ st, Rs st (delete key st)) → moves (state_pop key).
Proof. intros H w. unfold state_pop. case_match; [apply H | reflexivity]. Qed.

Lemma steps_register_callback signal cb : moves (register_callback signal cb).
Proof. intros w. reflexivity. Qed.

Lemma steps_deregister_callback signal cb : moves (deregister_callback signal cb).
Proof.
  intros w. unfold deregister_callback, bind, log. simpl.
  repeat case_match; reflexivity.
Qed.

Lemma steps_settings_set name v : moves (settings_set name v).
Proof. intros w. reflexivity. Qed.

Lemma steps_settings_to_dict : moves settings_to_dict.
Proof. intros w. reflexivity. Qed.

Lemma steps_allocate : moves allocate.
Proof. intros w. reflexivity. Qed.

Lemma steps_import_module env m : moves (import_module env m).
Proof. unfold import_module. case_match; [apply steps_ret | apply steps_raise]. Qed.

Lemma steps_connect_application_quit env : moves (_connect_application_quit env).
Proof.
  unfold _connect_application_quit.
  repeat case_match; (apply steps_log || apply steps_ret).
Qed.

Lemma steps_for_each_installer env installers :
  Forall (λ install, moves (install env)) installers →
  moves (for_each_installer env installers).
Proof.
  induction 1 as [|install rest Hi _ IH]; simpl.
  - apply steps_ret.
  - intros w. specialize (Hi w).
    destruct (install env w) as [[a|e] w']; simpl in *; [done|].
    case_bool_decide; simpl; [|done].
    etrans; [exact Hi | apply IH].
Qed.

End Steps.

(** Walks through a computation; what is left are the conditions on its
    writes. *)
Ltac steps_walk :=
  repeat first
    [ apply steps_ret | apply steps_raise | apply steps_log
    | apply steps_state_get | apply steps_state_item
    | apply steps_register_callback | apply steps_deregister_callback
    | apply steps_settings_set | apply steps_settings_to_dict
    | apply steps_allocate | apply steps_import_module
    | apply steps_connect_application_quit
    | apply steps_bind | apply steps_try_except | apply steps_try_except_all
    | apply steps_for_each_installer
    | apply steps_state_set | apply steps_state_pop
    | apply Forall_cons_2 | apply Forall_nil_2
    | progress intros
    | progress cbv zeta
    | match goal with
      | |- steps _ (match ?x with _ => _ end) => destruct x
      end ];
  try done.

(** ** The functions of the module, by the keys they write *)

Section Writes.
Context (Rs : relation (gmap string Value)) `{PreOrder0 : !PreOrder Rs}.

Local Abbreviation moves := (steps Rs).


Hypothesis set_wrapper : ∀ st f, Rs st (<["dispatchWrapper" := VFunction f]> st).
Hypothesis pop_wrapper : ∀ st, Rs st (delete "dispatchWrapper" st).
Hypothesis set_installed : ∀ st, Rs st (<["installed" := VBool true]> st).
Hypothesis set_current : ∀ st s, Rs st (<["currentServer" := VServer s]> st).
Hypothesis pop_current : ∀ st, Rs st (delete "currentServer" st).
Hypothesis set_pyqt5 : ∀ st path, Rs st (<["pyqt5" := VStr path]> st).
Hypothesis set_python : ∀ st path, Rs st (<["pythonExecutable" := VStr path]> st).

Lemma steps_register_dispatch_wrapper wrapper : moves (register_dispatch_wrapper wrapper).
Proof using PreOrder0 set_wrapper. unfold_host. steps_walk. Qed.

Lemma steps_deregister_dispatch_wrapper : moves deregister_dispatch_wrapper.
Proof using PreOrder0 pop_wrapper. unfold_host. steps_walk. Qed.

Lemma steps_install_callbacks : moves install_callbacks.
Proof using PreOrder0. unfold_host. steps_walk. Qed.

Lemma steps_uninstall_callbacks : moves uninstall_callbacks.
Proof using PreOrder0. unfold_host. steps_walk. Qed.

Lemma steps_uninstall : moves uninstall.
Proof using PreOrder0. unfold_host. steps_walk. Qed.

Lemma steps_install_host env : moves (install_host env).
Proof using PreOrder0 set_wrapper. unfold_host. steps_walk. Qed.

Lemma steps_install env : moves (install env).
Proof using PreOrder0 set_wrapper set_installed.
  unfold install. steps_walk.
Qed.

Lemma steps_ensure_installed env : moves (ensure_installed env).
Proof using PreOrder0 set_wrapper set_installed. unfold ensure_installed. steps_walk. Qed.

Lemma steps_show_gui env : moves (show_gui env).
Proof using PreOrder0 set_current pop_current. unfold_host. steps_walk. Qed.

Lemma steps_register_pyqt5 path : moves (register_pyqt5 path).
Proof using PreOrder0 set_pyqt5. unfold_host. steps_walk. Qed.

Lemma steps_register_python_executable env path :
  moves (register_python_executable env path).
Proof using PreOrder0 set_python. unfold_host. steps_walk. Qed.

Lemma steps_on_application_quit env : moves (_on_application_quit env).
Proof using PreOrder0. unfold_host. steps_walk. Qed.

Lemma steps_show env : moves (show env).
Proof using PreOrder0 set_wrapper set_installed set_current pop_current.
  intros w. rewrite show_split.
  apply steps_bind; [done | apply steps_ensure_installed | intros; apply steps_show_gui]; done.
Qed.

End Writes.

#[global] Instance keeps_preorder key : PreOrder (keeps key).
Proof. split; [intros a | intros a b c]; unfold keeps; congruence. Qed.

#[global] Instance preserves_preorder (P : gmap string Value → Prop) :
  PreOrder (preserves P).
Proof. split; [intros a | intros a b c]; unfold preserves; tauto. Qed.

#[global] Instance keeps_installed_preorder : PreOrder keeps_installed.
Proof.
  split; [intros a | intros a b c]; unfold keeps_installed; [tauto |].
  intros Hab Hbc Hi Hw. destruct (Hab Hi Hw). by apply Hbc.
Qed.


Lemma keeps_insert_ne key key' v (st : gmap string Value) :
  key ≠ key' → keeps key st (<[key':=v]> st).
Proof. intros. unfold keeps. by rewrite lookup_insert_ne. Qed.

Lemma keeps_delete_ne key key' (st : gmap string Value) :
  key ≠ key' → keeps key st (delete key' st).
Proof. intros. unfold keeps. by rewrite lookup_delete_ne. Qed.

(** A call leaves every entry it may not write as it is. *)
Lemma run_frame env c w key :
  key ∉ may_write c → _state (run env c w) !! key = _state w !! key.
Proof.
  intros Hkey.
  assert (∀ A (m : M A), steps (keeps key) m → _state (m w).2 !! key = _state w !! key)
    as Hsteps by (intros A m Hm; apply Hm).
  assert (∀ key' l, key ∉ key' :: l → key ≠ key') as Hne
    by (intros key' l Hn ->; apply Hn; by left).
  assert (∀ key' l, key ∉ key' :: l → key ∉ l) as Htl
    by (intros key' l Hn Hin; apply Hn; by right).
  destruct c; unfold run; simpl in Hkey; apply Hsteps.
  - apply steps_register_dispatch_wrapper; [apply _ | intros; eapply keeps_insert_ne, Hne, Hkey].
  - apply steps_deregister_dispatch_wrapper; [apply _ | intros; eapply keeps_delete_ne, Hne, Hkey].
  - apply steps_state_get, _.
  - apply steps_state_get, _.
  - apply steps_install; [apply _ | intros; apply keeps_insert_ne; eauto ..].
  - apply steps_uninstall, _.
  - apply steps_show;
      [apply _ | intros; (apply keeps_insert_ne || apply keeps_delete_ne); eauto 6 ..].
  - apply steps_install_callbacks, _.
  - apply steps_uninstall_callbacks, _.
  - apply steps_register_python_executable;
      [apply _ | intros; eapply keeps_insert_ne, Hne, Hkey].
  - apply steps_state_get, _.
  - apply steps_register_pyqt5; [apply _ | intros; eapply keeps_insert_ne, Hne, Hkey].
  - apply steps_install_host; [apply _ | intros; eapply keeps_insert_ne, Hne, Hkey].
  - apply steps_on_application_quit, _.
Qed.

Lemma exec_snoc calls env c w : exec (calls ++ [(env, c)]) w = run env c (exec calls w).
Proof. unfold exec. rewrite foldl_app. reflexivity. Qed.

Lemma exec_frame calls w key :
  Forall (λ c, key ∉ may_write c.2) calls →
  _state (exec calls w) !! key = _state w !! key.
Proof.
  induction calls as [|[env c] calls IH] using rev_ind; [done|].
  intros [Hcalls [Hc _]%Forall_cons]%Forall_app.
  rewrite exec_snoc. rewrite run_frame; [by apply IH | exact Hc].
Qed.
(** ** The dispatch wrapper *)

Ltac unfold_py :=
  unfold register_dispatch_wrapper, deregister_dispatch_wrapper, dispatch_wrapper,
    current_server, register_python_executable, registered_python_executable,
    register_pyqt5, state_set, state_get, state_pop, state_item, log, bind, ret,
    raise, with_state, any in *.

Lemma register_dispatch_wrapper_shape wrapper w :
  documented_shape wrapper →
  register_dispatch_wrapper wrapper w =
    (Return (),
     {| _state := <["dispatchWrapper" := VFunction wrapper]> (_state w);
        _registered_callbacks := _registered_callbacks w;
        settings := settings w; fresh := fresh w;
        trace := trace w ++ [EStateSet "dispatchWrapper" (VFunction wrapper)] |}).
Proof.
  intros (Hlen & Hvar & Hkw). unfold_py. rewrite Hlen. simpl.
  rewrite !bool_decide_eq_false_2 by done. done.
Qed.

Lemma register_dispatch_wrapper_mismatch wrapper w :
  ¬ documented_shape wrapper →
  register_dispatch_wrapper wrapper w = (Raise TypeError, w).
Proof.
  intros Hno. unfold_py. simpl.
  destruct (Nat.eqb_spec (length (args (getargspec wrapper))) 1) as [Hlen|]; [|done].
  simpl. case_bool_decide; [done|]. simpl. case_bool_decide; [done|].
  destruct Hno. done.
Qed.

(** C1. [register_dispatch_wrapper(wrapper)] raises [TypeError] exactly when
    the signature of [wrapper] is not one positional parameter together
    with a [*varargs] and a [**kwargs] parameter, and it raises nothing
    else; when it does not raise, the state is the old one with [wrapper]
    stored under ["dispatchWrapper"], and [dispatch_wrapper()] called next
    returns that wrapper. *)
Theorem register_dispatch_wrapper_spec (wrapper : Function) (w : World) :
  ((register_dispatch_wrapper wrapper w).1 = Raise TypeError ↔ ¬ documented_shape wrapper)
  ∧ (∀ e, (register_dispatch_wrapper wrapper w).1 = Raise e → e = TypeError)
  ∧ (documented_shape wrapper →
       (register_dispatch_wrapper wrapper w).1 = Return ()
       ∧ _state (register_dispatch_wrapper wrapper w).2
           = <["dispatchWrapper" := VFunction wrapper]> (_state w)
       ∧ (dispatch_wrapper (register_dispatch_wrapper wrapper w).2).1
           = Return (VFunction wrapper)).
Proof.
  destruct (decide (documented_shape wrapper)) as [Hs|Hs].
  - rewrite (register_dispatch_wrapper_shape _ _ Hs). simpl.
    split; [split; [discriminate | tauto] |].
    split; [discriminate |]. intros _.
    unfold_py. simpl. by rewrite lookup_insert_eq.
  - rewrite (register_dispatch_wrapper_mismatch _ _ Hs). simpl.
    split; [tauto |]. split; [congruence | tauto].
Qed.

Lemma register_dispatch_wrapper_witness :
  (dispatch_wrapper (register_dispatch_wrapper (make_threaded_wrapper maya_utils) initial).2).1
    = Return (VFunction (make_threaded_wrapper maya_utils)).
Proof.
  apply (register_dispatch_wrapper_spec (make_threaded_wrapper maya_utils) initial).
  vm_compute. repeat split; discriminate.
Defined.

(** ** Host installers *)

Ltac run_py :=
  unfold_host;
  unfold state_set, state_get, state_pop, state_item, settings_set, settings_to_dict,
    register_callback, deregister_callback, allocate, log, try_except, try_except_all,
    bind, ret, raise, with_state, with_callbacks, any;
  simpl.

Lemma world_eq (w w' : World) :
  _state w = _state w' →
  _registered_callbacks w = _registered_callbacks w' →
  settings w = settings w' →
  fresh w = fresh w' →
  trace w = trace w' →
  w = w'.
Proof. destruct w, w'; simpl; congruence. Qed.

Lemma installer_unsupported env h w :
  supported env h = false → installer h env w = (Raise ImportError, w).
Proof.
  destruct h; simpl; intros Hs; run_py.
  - by rewrite Hs.
  - by rewrite Hs.
  - destruct (importable env mod_nuke); [|done]. simpl in Hs.
    apply negb_false_iff in Hs. by rewrite Hs.
  - destruct (importable env mod_hiero); [|done].
    destruct (importable env mod_nuke); [|done]. simpl in Hs. by rewrite Hs.
  - by rewrite Hs.
Qed.

Lemma installer_supported env h w :
  supported env h = true → installer h env w = (Return (), host_world env h w).
Proof.
  unfold host_world, host_trace, connect_trace.
  destruct h; simpl; intros Hs; run_py.
  - rewrite Hs.
    destruct (qt_loaded env), (qapp_instance env); simpl;
      (f_equal; apply world_eq; simpl; [done..|by rewrite <- ?app_assoc]).
  - rewrite Hs.
    destruct (qt_loaded env), (qapp_instance env); simpl;
      (f_equal; apply world_eq; simpl; [done..|by rewrite <- ?app_assoc]).
  - apply andb_true_iff in Hs as [-> Hs]. apply negb_true_iff in Hs. rewrite Hs.
    destruct (qt_loaded env), (qapp_instance env); simpl;
      (f_equal; apply world_eq; simpl; [done..|by rewrite <- ?app_assoc]).
  - apply andb_true_iff in Hs as [Hs ->]. apply andb_true_iff in Hs as [-> ->].
    destruct (qt_loaded env), (qapp_instance env); simpl;
      (f_equal; apply world_eq; simpl; [done..|by rewrite <- ?app_assoc]).
  - rewrite Hs.
    destruct (qt_loaded env), (qapp_instance env); simpl;
      (f_equal; apply world_eq; simpl; [done..|by rewrite <- ?app_assoc]).
Qed.

Lemma for_each_installer_find env hosts w :
  for_each_installer env (map installer hosts) w =
    match List.find (supported env) hosts with
    | Some h => (Return (), host_world env h w)
    | None => (Return (), w)
    end.
Proof.
  induction hosts as [|h hosts IH]; simpl; [done|].
  destruct (supported env h) eqn:Hs.
  - by rewrite installer_supported.
  - rewrite installer_unsupported by done. simpl. apply IH.
Qed.

Lemma install_host_shape env w :
  install_host env w =
    (Return (),
     match first_supported env with
     | Some h => host_world env h w
     | None => w
     end).
Proof.
  change (install_host env) with (for_each_installer env (map installer hosts_in_order)).
  rewrite for_each_installer_find. unfold first_supported. by case_match.
Qed.

Lemma added_app w w' t : trace w' = trace w ++ t → added w w' = t.
Proof. intros H. unfold added. rewrite H. by rewrite drop_app_length. Qed.

Lemma hosts_set_up_host_trace env h : hosts_set_up (host_trace env h) = [h].
Proof.
  unfold host_trace, connect_trace.
  destruct h, (qt_loaded env), (qapp_instance env); reflexivity.
Qed.

(** C2. [install_host()] goes through the installers in the order Maya,
    Houdini, Nuke, Hiero, Blender.  An installer raises [ImportError]
    exactly when its host is not supported by the surroundings, and then it
    has changed nothing; the first installer that does not raise is the
    last one run, so that the world [install_host] leaves is the world
    that this one installer leaves, the trace holds the set-up line of at
    most this one host, and [install_host] returns without an exception. *)
Theorem install_host_first_supported (env : Env) (w : World) :
  install_host env = for_each_installer env (map installer hosts_in_order)
  ∧ (∀ h, (installer h env w).1 = Raise ImportError ↔ supported env h = false)
  ∧ (∀ h, supported env h = false → (installer h env w).2 = w)
  ∧ (install_host env w).1 = Return ()
  ∧ match List.find (supported env) hosts_in_order with
    | Some h =>
        install_host env w = installer h env w
        ∧ hosts_set_up (added w (install_host env w).2) = [h]
    | None =>
        (install_host env w).2 = w
        ∧ hosts_set_up (added w (install_host env w).2) = []
    end.
Proof.
  split; [reflexivity|]. split; [|split; [|split]].
  - intros h. destruct (supported env h) eqn:Hs.
    + rewrite installer_supported by done. simpl. split; discriminate.
    + by rewrite installer_unsupported.
  - intros h Hs. by rewrite installer_unsupported.
  - by rewrite install_host_shape.
  - rewrite install_host_shape. unfold first_supported.
    destruct (List.find _ _) as [h|] eqn:Hfind; simpl.
    + apply find_some in Hfind as [_ Hs].
      rewrite installer_supported by done. split; [done|].
      rewrite (added_app _ _ (host_trace env h)) by done.
      apply hosts_set_up_host_trace.
    + split; [done|]. rewrite (added_app _ _ []); [done|]. by rewrite app_nil_r.
Qed.

(** C5. The installer of a host goes through exactly when the host is
    supported by the surroundings (its modules can be imported and, for
    Nuke and Hiero, the arguments of the application fit).  When it goes
    through for Maya, Houdini, Nuke or Hiero, it has registered a
    dispatch wrapper of the documented signature, and a call of this
    wrapper is a call of [executeInMainThreadWithResult] in the namespace
    of that host, with the function as first argument; when it goes
    through for Blender, the one host without such a namespace, it has
    left the state dictionary as it was and written no key of it.  An
    installer that does not go through raises [ImportError] and has
    changed nothing. *)
Theorem installers_dispatch_wrapper (env : Env) (w : World) (h : Host) :
  ((installer h env w).1 = Return () ↔ supported env h = true)
  ∧ (supported env h = true →
     match host_api h with
     | Some api =>
         h ≠ Blender
         ∧ (dispatch_wrapper (installer h env w).2).1
             = Return (VFunction (make_threaded_wrapper api))
         ∧ EStateSet "dispatchWrapper" (VFunction (make_threaded_wrapper api))
             ∈ added w (installer h env w).2
         ∧ documented_shape (make_threaded_wrapper api)
         ∧ ∀ func args kwargs,
             ∃ c, call_function (make_threaded_wrapper api) func args kwargs = Some c
                  ∧ call_api c = api
                  ∧ head (call_positional c) = Some (AName func)
     | None =>
         h = Blender
         ∧ _state (installer h env w).2 = _state w
         ∧ ∀ e, e ∈ added w (installer h env w).2 →
                ∀ key v, e ≠ EStateSet key v
     end)
  ∧ (supported env h = false → installer h env w = (Raise ImportError, w))
  ∧ (host_api h = None ↔ h = Blender).
Proof.
  split; [|split; [|split]].
  - destruct (supported env h) eqn:Hs.
    + by rewrite installer_supported.
    + rewrite installer_unsupported by done. simpl. split; discriminate.
  - intros Hs. rewrite installer_supported by done. simpl.
    rewrite (added_app _ _ (host_trace env h)) by done.
    destruct h; simpl.
    1-4: split; [done|]; split; [run_py; by rewrite lookup_insert_eq|];
         split; [unfold host_trace; simpl; right; by left|];
         split; [by repeat split|];
         intros func args kwargs; eexists; by repeat split.
    split; [done|]. split; [done|].
    unfold host_trace, connect_trace. simpl.
    intros e He key v.
    destruct (qt_loaded env), (qapp_instance env); simpl in He;
      rewrite ?elem_of_cons, elem_of_nil in He; destruct_or!; by subst.
  - intros Hs. by apply installer_unsupported.
  - destruct h; simpl; split; done.
Qed.

(** C9. Without a registered wrapper the two accessors differ in kind:
    [dispatch_wrapper()] returns [None], [deregister_dispatch_wrapper()]
    raises [KeyError] (and changes nothing).  After a registration that
    went through, [deregister_dispatch_wrapper()] returns and removes the
    entry ["dispatchWrapper"], every other entry staying as it was. *)
Theorem deregister_dispatch_wrapper_spec (wrapper : Function) (w : World) :
  (_state w !! "dispatchWrapper" = None →
     (dispatch_wrapper w).1 = Return VNone
     ∧ deregister_dispatch_wrapper w = (Raise KeyError, w))
  ∧ (documented_shape wrapper →
     (deregister_dispatch_wrapper (register_dispatch_wrapper wrapper w).2).1 = Return ()
     ∧ _state (deregister_dispatch_wrapper (register_dispatch_wrapper wrapper w).2).2
         = delete "dispatchWrapper" (_state w)
     ∧ ∀ key, key ≠ "dispatchWrapper" →
         _state (deregister_dispatch_wrapper (register_dispatch_wrapper wrapper w).2).2 !! key
           = _state (register_dispatch_wrapper wrapper w).2 !! key).
Proof.
  split.
  - intros Hnone. unfold_py. by rewrite Hnone.
  - intros Hs. rewrite (register_dispatch_wrapper_shape _ _ Hs).
    unfold_py. simpl. rewrite lookup_insert_eq. simpl.
    split; [done|]. split; [by rewrite delete_insert_eq|].
    intros key Hkey. by rewrite lookup_delete_ne.
Qed.

Lemma deregister_dispatch_wrapper_witness :
  ((dispatch_wrapper initial).1 = Return VNone
   ∧ deregister_dispatch_wrapper initial = (Raise KeyError, initial))
  ∧ (deregister_dispatch_wrapper
       (register_dispatch_wrapper (make_threaded_wrapper nuke_api) initial).2).1 = Return ().
Proof.
  split.
  - apply (deregister_dispatch_wrapper_spec (make_threaded_wrapper nuke_api) initial).
    reflexivity.
  - apply (deregister_dispatch_wrapper_spec (make_threaded_wrapper nuke_api) initial).
    vm_compute. repeat split; discriminate.
Defined.

(** ** Toggling *)

(** C6. [_toggle_instance] puts the new value under ["publish"] in the
    data of the instance, leaves every other entry of the data and every
    other attribute of the instance as it was, and does not look at the
    old value; [_toggle_plugin] does the same to the attribute [active]
    of the plug-in.  [install_callbacks] registers the two under the
    signals ["instanceToggled"] and ["pluginToggled"]. *)
Theorem toggle_frame (instance : Instance) (plugin : Plugin)
    (new_value old_value old_value' : Value) (w : World) :
  data (_toggle_instance instance new_value old_value) !! "publish" = Some new_value
  ∧ (∀ key, key ≠ "publish" →
       data (_toggle_instance instance new_value old_value) !! key = data instance !! key)
  ∧ instance_attrs (_toggle_instance instance new_value old_value) = instance_attrs instance
  ∧ _toggle_instance instance new_value old_value
      = _toggle_instance instance new_value old_value'
  ∧ plugin_attrs (_toggle_plugin plugin new_value old_value) !! "active" = Some new_value
  ∧ (∀ name, name ≠ "active" →
       plugin_attrs (_toggle_plugin plugin new_value old_value) !! name
         = plugin_attrs plugin !! name)
  ∧ _toggle_plugin plugin new_value old_value = _toggle_plugin plugin new_value old_value'
  ∧ (install_callbacks w).1 = Return ()
  ∧ toggles_registered (install_callbacks w).2.
Proof.
  unfold _toggle_instance, _toggle_plugin. simpl.
  repeat split; try done.
  - apply lookup_insert_eq.
  - intros key Hkey. by rewrite lookup_insert_ne.
  - apply lookup_insert_eq.
  - intros name Hname. by rewrite lookup_insert_ne.
  - unfold registered. run_py. rewrite lookup_insert_ne by done.
    rewrite lookup_insert_eq. simpl. apply elem_of_app. right. by left.
  - unfold registered. run_py. rewrite lookup_insert_eq. simpl.
    apply elem_of_app. right. by left.
Qed.

Lemma toggle_frame_witness :
  data (_toggle_instance {| data := {["family" := VStr "model"]}; instance_attrs := ∅ |}
          (VBool false) (VBool true)) !! "family" = Some (VStr "model").
Proof.
  pose proof (toggle_frame {| data := {["family" := VStr "model"]}; instance_attrs := ∅ |}
                {| plugin_attrs := ∅ |} (VBool false) (VBool true) VNone initial)
    as (_ & Hframe & _).
  rewrite (Hframe "family"); [reflexivity | discriminate].
Defined.

(** ** Executables *)

Lemma no_register_python_executable calls :
  Forall (λ c, is_register_python_executable c.2 = false) calls →
  Forall (λ c : Env * Call, "pythonExecutable" ∉ may_write c.2) calls.
Proof.
  intros Hcalls. eapply Forall_impl; [exact Hcalls|]. intros [env c]; simpl.
  destruct c; simpl; try discriminate; intros _ Hin;
    rewrite ?elem_of_cons, elem_of_nil in Hin; destruct_or!; done.
Qed.

(** C10. [register_python_executable(path)] raises [AssertionError] and
    changes nothing when [path] is no file; when it is a file, the call
    returns and [registered_python_executable()] called next returns
    [path].  After any calls from the start among which there is no
    [register_python_executable], [registered_python_executable()]
    returns [None]. *)
Theorem register_python_executable_spec (env : Env) (path : string) (w : World)
    (calls : list (Env * Call)) :
  (isfile env path = false →
     register_python_executable env path w = (Raise AssertionError, w))
  ∧ (isfile env path = true →
     (register_python_executable env path w).1 = Return ()
     ∧ (registered_python_executable (register_python_executable env path w).2).1
         = Return (VStr path))
  ∧ (Forall (λ c, is_register_python_executable c.2 = false) calls →
     (registered_python_executable (exec calls initial)).1 = Return VNone).
Proof.
  split; [|split].
  - intros Hf. unfold_py. by rewrite Hf.
  - intros Hf. unfold_py. rewrite Hf. simpl. by rewrite lookup_insert_eq.
  - intros Hcalls. unfold registered_python_executable, state_get. simpl.
    by rewrite exec_frame by by apply no_register_python_executable.
Qed.

(** ** Install *)

Lemma install_callbacks_run w : install_callbacks w = (Return (), (install_callbacks w).2).
Proof. reflexivity. Qed.

Lemma install_host_run env w : install_host env w = (Return (), (install_host env w).2).
Proof. by rewrite install_host_shape. Qed.

Lemma install_fresh env w :
  installed_flag (_state w) = false → install env w = (Return (), installed_world env w).
Proof.
  unfold installed_flag. intros Hflag.
  unfold install, installed_world, bind at 1, state_get. simpl. rewrite Hflag.
  unfold bind at 1, ret at 1. unfold bind at 1. rewrite install_callbacks_run.
  unfold bind at 1. rewrite install_host_run. reflexivity.
Qed.

Lemma ensure_installed_fresh env w :
  installed_flag (_state w) = false →
  ensure_installed env w = (Return (), installed_world env w).
Proof.
  intros Hflag. rewrite <- (install_fresh _ _ Hflag).
  unfold ensure_installed, bind, state_get. simpl.
  unfold installed_flag in Hflag. by rewrite Hflag.
Qed.

Lemma ensure_installed_again env w :
  installed_flag (_state w) = true → ensure_installed env w = (Return (), w).
Proof.
  unfold installed_flag. intros Hflag.
  unfold ensure_installed, bind, state_get. simpl. by rewrite Hflag.
Qed.

Lemma installed_world_trace env w :
  trace (installed_world env w) = trace w ++ install_trace env.
Proof.
  unfold installed_world, install_trace, host_install_trace.
  rewrite install_host_shape.
  destruct (first_supported env) as [h|]; simpl;
    repeat (progress (rewrite <- ?app_assoc; simpl)); done.
Qed.

Lemma installed_world_fresh env w : fresh (installed_world env w) = fresh w.
Proof.
  unfold installed_world. rewrite install_host_shape.
  by destruct (first_supported env).
Qed.

Lemma installed_world_flag env w : installed_flag (_state (installed_world env w)) = true.
Proof.
  unfold installed_world, installed_flag. unfold state_set, bind, log, with_state. simpl.
  by rewrite lookup_insert_eq.
Qed.

Lemma installed_world_current env w :
  _state (installed_world env w) !! "currentServer" = _state w !! "currentServer".
Proof.
  unfold installed_world. rewrite install_host_shape.
  unfold state_set, bind, log, with_state. simpl.
  rewrite lookup_insert_ne by done.
  destruct (first_supported env) as [h|]; [|done].
  unfold host_world. simpl. destruct (host_api h); [|done].
  by rewrite lookup_insert_ne.
Qed.

Lemma show_fresh env w :
  installed_flag (_state w) = false → show env w = show_gui env (installed_world env w).
Proof.
  intros Hflag. rewrite show_split. unfold bind. by rewrite ensure_installed_fresh.
Qed.

Lemma show_again env w :
  installed_flag (_state w) = true → show env w = show_gui env w.
Proof.
  intros Hflag. rewrite show_split. unfold bind. by rewrite ensure_installed_again.
Qed.

(** ** The invariant of the state dictionary *)

Lemma well_formed_insert key v st :
  key ≠ "currentServer" → (∀ s, v ≠ VServer s) →
  (key = "installed" → truthy v = true) →
  preserves well_formed st (<[key:=v]> st).
Proof.
  intros Hkey Hv Hinst (Hservers & Hcurrent & Himplies). split; [|split].
  - intros k s. rewrite lookup_insert. case_decide; [|by apply Hservers].
    intros [= ->]. by destruct (Hv s).
  - intros v'. rewrite lookup_insert_ne by done. apply Hcurrent.
  - unfold current_implies_installed, installed_flag.
    rewrite (lookup_insert_ne _ key "currentServer") by done. intros Hsome.
    rewrite lookup_insert. case_decide as Hk; [by apply Hinst | by apply Himplies].
Qed.

Lemma well_formed_delete key st :
  key ≠ "installed" → preserves well_formed st (delete key st).
Proof.
  intros Hkey (Hservers & Hcurrent & Himplies). split; [|split].
  - intros k s. rewrite lookup_delete. case_decide; [done | by apply Hservers].
  - intros v. rewrite lookup_delete. case_decide; [done | by apply Hcurrent].
  - unfold current_implies_installed, installed_flag.
    rewrite (lookup_delete_ne _ key "installed") by done. rewrite lookup_delete.
    case_decide; [by intros [? ?] | by apply Himplies].
Qed.

Lemma keeps_installed_insert key v st :
  key ≠ "installed" → (∀ s, v = VServer s → key = "currentServer") →
  (key = "currentServer" → ∃ s, v = VServer s) →
  keeps_installed st (<[key:=v]> st).
Proof.
  intros Hkey Hv Hcur Hflag (Hservers & Hcurrent & Himplies). split; [|split; [|split]].
  - unfold installed_flag. by rewrite lookup_insert_ne.
  - intros k s. rewrite lookup_insert. case_decide as Hk; [|by apply Hservers].
    intros [= ->]. rewrite <- Hk. by eapply Hv.
  - intros v'. rewrite lookup_insert. case_decide as Hk; [|by apply Hcurrent].
    intros [= <-]. by apply Hcur.
  - intros _. unfold installed_flag. by rewrite lookup_insert_ne.
Qed.

Lemma keeps_installed_delete key st :
  key ≠ "installed" → keeps_installed st (delete key st).
Proof.
  intros Hkey Hflag Hwf. split.
  - unfold installed_flag. by rewrite lookup_delete_ne.
  - by apply well_formed_delete.
Qed.

Lemma ensure_installed_flag env w :
  (ensure_installed env w).1 = Return () →
  installed_flag (_state (ensure_installed env w).2) = true.
Proof.
  destruct (installed_flag (_state w)) eqn:Hflag.
  - by rewrite ensure_installed_again.
  - rewrite ensure_installed_fresh by done. intros _. apply installed_world_flag.
Qed.

Lemma show_well_formed env w :
  well_formed (_state w) → well_formed (_state (show env w).2).
Proof.
  intros Hwf. rewrite show_split. unfold bind.
  assert (well_formed (_state (ensure_installed env w).2)) as Hwf1.
  { revert Hwf. apply (steps_ensure_installed (preserves well_formed)).
    - intros st f. by apply well_formed_insert.
    - intros st. by apply well_formed_insert. }
  pose proof (ensure_installed_flag env w) as Hflag.
  destruct (ensure_installed env w) as [[[]|e] w1]; simpl in *; [|done].
  assert (steps keeps_installed (show_gui env)) as Hgui.
  { apply steps_show_gui; [apply _ | |].
    - intros st s. apply keeps_installed_insert; naive_solver.
    - intros st. by apply keeps_installed_delete. }
  apply (Hgui w1); [by apply Hflag | done].
Qed.

Lemma run_well_formed env c w :
  well_formed (_state w) → well_formed (_state (run env c w)).
Proof.
  assert (∀ A (m : M A), steps (preserves well_formed) m →
            well_formed (_state w) → well_formed (_state (m w).2))
    as Hsteps by (intros A m Hm; apply Hm).
  destruct c; unfold run; try apply show_well_formed; apply Hsteps.
  - apply steps_register_dispatch_wrapper; [apply _ | intros; by apply well_formed_insert].
  - apply steps_deregister_dispatch_wrapper; [apply _ | intros; by apply well_formed_delete].
  - apply steps_state_get, _.
  - apply steps_state_get, _.
  - apply steps_install; [apply _ | intros; by apply well_formed_insert ..].
  - apply steps_uninstall, _.
  - apply steps_install_callbacks, _.
  - apply steps_uninstall_callbacks, _.
  - apply steps_register_python_executable; [apply _ | intros; by apply well_formed_insert].
  - apply steps_state_get, _.
  - apply steps_register_pyqt5; [apply _ | intros; by apply well_formed_insert].
  - apply steps_install_host; [apply _ | intros; by apply well_formed_insert].
  - apply steps_on_application_quit, _.
Qed.

Lemma reachable_well_formed w : reachable w → well_formed (_state w).
Proof.
  intros [calls ->].
  induction calls as [|[env c] calls IH] using rev_ind.
  - change (exec [] initial) with initial. unfold initial. simpl.
    split; [|split].
    + intros k s Hk. by rewrite lookup_empty in Hk.
    + intros v Hv. by rewrite lookup_empty in Hv.
    + intros [v Hv]. by rewrite lookup_empty in Hv.
  - rewrite exec_snoc. by apply run_well_formed.
Qed.


(** ** Showing the GUI *)

Lemma construction_error_none env :
  construction_error env = None → service_ctor env = None ∧ server_ctor env = None.
Proof. unfold construction_error. by destruct (service_ctor env). Qed.

Ltac norm_trace := repeat (progress (rewrite <- ?app_assoc; simpl)).

Lemma show_gui_reuse env w s :
  _state w !! "currentServer" = Some (VServer s) → proxy_show env s = None →
  show_gui env w = (Return (VServer s), emit [EProxyShow s (settings w)] w).
Proof. intros Hcur Hshow. run_py. repeat (rewrite Hcur; simpl). by rewrite Hshow. Qed.

Lemma show_gui_raises env w s e :
  _state w !! "currentServer" = Some (VServer s) → proxy_show env s = Some e →
  e ≠ IOError →
  show_gui env w = (Raise e, emit [EProxyShow s (settings w)] w).
Proof.
  intros Hcur Hshow He. run_py. repeat (rewrite Hcur; simpl). rewrite Hshow. simpl.
  rewrite bool_decide_eq_false_2; [done|].
  intros Hin. rewrite elem_of_cons, elem_of_nil in Hin. by destruct Hin.
Qed.

Lemma show_gui_stale env w s :
  _state w !! "currentServer" = Some (VServer s) → proxy_show env s = Some IOError →
  show_gui env w = show_gui env (popped_world s w).
Proof.
  intros Hcur Hshow. unfold popped_world, emit.
  run_py. repeat (rewrite Hcur; simpl). rewrite Hshow. simpl. repeat (rewrite Hcur; simpl).
  rewrite lookup_delete_eq. simpl. norm_trace. reflexivity.
Qed.

Lemma show_gui_spawn env w :
  _state w !! "currentServer" = None → construction_error env = None →
  (show_gui env w).1
    = match proxy_show env (server_of env w) with
      | None => Return (VServer (server_of env w))
      | Some e => Raise e
      end
  ∧ _state (show_gui env w).2
    = match proxy_show env (server_of env w) with
      | None => <["currentServer" := VServer (server_of env w)]> (_state w)
      | Some _ => _state w
      end
  ∧ trace (show_gui env w).2
    = trace w ++ splash_trace env w
      ++ [ERegisterCallback "pyblishQmlShown" (shown_callback env w);
          ESpawn (server_of env w);
          EProxyShow (server_of env w) (settings w)]
      ++ match proxy_show env (server_of env w) with
         | None => [EStateSet "currentServer" (VServer (server_of env w));
                    EStdout success_line]
         | Some _ => []
         end.
Proof.
  intros Hcur [Hservice Hserver]%construction_error_none.
  unfold server_of, shown_callback, closure_of, splash_trace, splash_of.
  run_py. rewrite Hcur, Hservice, Hserver. simpl.
  destruct (qt_loaded env), (qapp_instance env); simpl;
    destruct (proxy_show env _); simpl; norm_trace; done.
Qed.

Lemma list_remove_app_new cb l : list_remove cb (l ++ [cb]) ≡ₚ l.
Proof.
  induction l as [|x l IH]; simpl.
  - by rewrite decide_True.
  - case_decide as Hx.
    + subst. symmetry. apply Permutation_cons_append.
    + by rewrite IH.
Qed.

Lemma show_gui_construction_fails env w e :
  _state w !! "currentServer" = None → construction_error env = Some e →
  (show_gui env w).1 = Return VNone
  ∧ _state (show_gui env w).2 = _state w
  ∧ trace (show_gui env w).2
    = trace w ++ splash_trace env w
      ++ [ERegisterCallback "pyblishQmlShown" (shown_callback env w); ETraceback e]
      ++ close_trace env (splash_of env w)
      ++ [EDeregisterCallback "pyblishQmlShown" (shown_callback env w)]
  ∧ default [] (_registered_callbacks (show_gui env w).2 !! "pyblishQmlShown")
    ≡ₚ default [] (_registered_callbacks w !! "pyblishQmlShown").
Proof.
  intros Hcur Hctor.
  unfold shown_callback, closure_of, splash_trace, close_trace, splash_of.
  assert (∀ (cb : Callback) l, bool_decide (cb ∈ l ++ [cb]) = true) as Hin.
  { intros cb l. apply bool_decide_eq_true_2, elem_of_app. right. by left. }
  unfold construction_error in Hctor.
  run_py. rewrite Hcur. simpl.
  destruct (service_ctor env) as [e'|]; [injection Hctor as -> | rewrite Hctor]; simpl;
    destruct (qt_loaded env), (qapp_instance env); simpl;
    try destruct (splash_deleted env _); simpl;
    rewrite ?lookup_insert_eq, ?Hin; simpl;
    rewrite ?lookup_insert_eq; simpl;
    (split; [done|]; split; [done|]; split; [norm_trace; done|]);
    apply list_remove_app_new.
Qed.

Lemma bind_return {A B} (m : M A) (f : A → M B) w a w' :
  m w = (Return a, w') → bind m f w = f a w'.
Proof. intros Hm. unfold bind. by rewrite Hm. Qed.

Lemma show_ensured env w : show env w = show_gui env (ensured_world env w).
Proof.
  unfold ensured_world. destruct (installed_flag (_state w)) eqn:Hflag.
  - by apply show_again.
  - by apply show_fresh.
Qed.

Lemma ensured_world_trace env w :
  trace (ensured_world env w) = trace w ++ ensured_trace env w.
Proof.
  unfold ensured_world, ensured_trace. destruct (installed_flag (_state w)).
  - by rewrite app_nil_r.
  - apply installed_world_trace.
Qed.

Lemma ensured_world_current env w :
  _state (ensured_world env w) !! "currentServer" = _state w !! "currentServer".
Proof.
  unfold ensured_world. destruct (installed_flag (_state w)); [done|].
  apply installed_world_current.
Qed.

Lemma ensured_world_shown env w :
  _registered_callbacks (ensured_world env w) !! "pyblishQmlShown"
    = _registered_callbacks w !! "pyblishQmlShown".
Proof.
  unfold ensured_world. destruct (installed_flag (_state w)); [done|].
  unfold installed_world. rewrite install_host_shape.
  destruct (first_supported env); run_py; by rewrite !lookup_insert_ne.
Qed.

Lemma ensured_trace_quiet env w : Forall quiet (ensured_trace env w).
Proof.
  unfold ensured_trace. destruct (installed_flag (_state w)); [constructor|].
  unfold install_trace, host_install_trace, callbacks_trace.
  destruct (first_supported env) as [h|]; [|by repeat constructor].
  unfold host_trace, connect_trace.
  destruct h, (qt_loaded env), (qapp_instance env); by repeat constructor.
Qed.

Lemma splash_trace_quiet env w : Forall quiet (splash_trace env w).
Proof. unfold splash_trace. destruct (splash_of env w); by repeat constructor. Qed.

Lemma close_trace_quiet env splash : Forall quiet (close_trace env splash).
Proof.
  unfold close_trace. destruct splash as [s|]; [|constructor].
  destruct (splash_deleted env s); by repeat constructor.
Qed.

Lemma quiet_no_spawn t : Forall quiet t → filter (λ e, is_spawn e = true) t = [].
Proof.
  induction 1 as [|e t [He _] _ IH]; [done|].
  rewrite filter_cons_False; [done | by rewrite He].
Qed.

(** C7. When the construction of the service or of the server raises an
    exception [e] in a call of [show()] that comes to it (there is no
    current server, or the current server answers the show call with
    [IOError]), then the call returns [None] and the state has no entry
    ["currentServer"]; the last things it does are: register [on_shown]
    under ["pyblishQmlShown"], print the traceback of [e], close the
    splash screen if there is one that is not yet deleted, deregister
    [on_shown]; the callbacks under ["pyblishQmlShown"] are those from
    before the call, and no server process was started. *)
Theorem show_construction_fails (env : Env) (w : World) (e : Exn) :
  construction_error env = Some e →
  (_state w !! "currentServer" = None
   ∨ ∃ s, _state w !! "currentServer" = Some (VServer s)
          ∧ proxy_show env s = Some IOError) →
  (show env w).1 = Return VNone
  ∧ _state (show env w).2 !! "currentServer" = None
  ∧ (∃ before closure splash,
       added w (show env w).2
         = before
           ++ [ERegisterCallback "pyblishQmlShown" (cb_on_shown closure splash);
               ETraceback e]
           ++ close_trace env splash
           ++ [EDeregisterCallback "pyblishQmlShown" (cb_on_shown closure splash)])
  ∧ default [] (_registered_callbacks (show env w).2 !! "pyblishQmlShown")
      ≡ₚ default [] (_registered_callbacks w !! "pyblishQmlShown")
  ∧ filter (λ e, is_spawn e = true) (added w (show env w).2) = [].
Proof.
  intros Hctor Hcome. rewrite show_ensured.
  pose proof (ensured_world_trace env w) as Htrace.
  pose proof (ensured_world_shown env w) as Hshown.
  pose proof (ensured_trace_quiet env w) as Hquiet.
  rewrite <- (ensured_world_current env w) in Hcome.
  set (w0 := ensured_world env w) in *.
  assert (∃ w1 t1, show_gui env w0 = show_gui env w1
                   ∧ _state w1 !! "currentServer" = None
                   ∧ trace w1 = trace w ++ t1 ∧ Forall quiet t1
                   ∧ _registered_callbacks w1 !! "pyblishQmlShown"
                       = _registered_callbacks w !! "pyblishQmlShown")
    as (w1 & t1 & -> & Hnone & Htrace1 & Hquiet1 & Hshown1).
  { destruct Hcome as [Hnone | (s & Hcur & Hshow)].
    - by exists w0, (ensured_trace env w).
    - exists (popped_world s w0),
        (ensured_trace env w ++ [EProxyShow s (settings w0); EStatePop "currentServer"]).
      split; [by apply show_gui_stale|]. split; [apply lookup_delete_eq|].
      split; [simpl; by rewrite Htrace, <- app_assoc|].
      split; [|done]. apply Forall_app. split; [done | by repeat constructor]. }
  destruct (show_gui_construction_fails env w1 e Hnone Hctor)
    as (Hres & Hstate & Htr & Hreg).
  split; [done|]. split; [by rewrite Hstate|].
  rewrite Htrace1, <- app_assoc in Htr. apply added_app in Htr.
  split; [|split].
  - exists (t1 ++ splash_trace env w1), (closure_of env w1), (splash_of env w1).
    rewrite Htr. by rewrite <- app_assoc.
  - by rewrite Hreg, Hshown1.
  - rewrite Htr. apply quiet_no_spawn.
    repeat (apply Forall_app; split);
      auto using splash_trace_quiet, close_trace_quiet; by repeat constructor.
Qed.

(** ** Reusing or replacing the current server *)

Lemma show_gui_fresh_outcome env w :
  _state w !! "currentServer" = None →
  ∃ t, trace (show_gui env w).2 = trace w ++ t
       ∧ (_state (show_gui env w).2 !! "currentServer" = None
          ∨ ∃ s', _state (show_gui env w).2 !! "currentServer" = Some (VServer s')
                  ∧ ESpawn s' ∈ t
                  ∧ EStateSet "currentServer" (VServer s') ∈ t).
Proof.
  intros Hnone. destruct (construction_error env) as [e|] eqn:Hctor.
  - destruct (show_gui_construction_fails env w e Hnone Hctor) as (_ & Hstate & Htr & _).
    eexists. split; [exact Htr|]. left. by rewrite Hstate.
  - destruct (show_gui_spawn env w Hnone Hctor) as (_ & Hstate & Htr).
    eexists. split; [exact Htr|]. rewrite Hstate.
    destruct (proxy_show env (server_of env w)); [by left|]. right.
    exists (server_of env w). split; [apply lookup_insert_eq|].
    split; apply elem_of_app; right; set_unfold; tauto.
Qed.

(** C3. After any calls from the start, the state dictionary refers to a
    server under the key ["currentServer"] only, so to one server at
    most.  When [show()] finds a current server whose show call goes
    through, it returns this server, keeps the entry and starts no server
    process.  When the show call raises [IOError], the entry is removed
    before any server process is started and before any server is stored;
    a server that is the current one afterwards was started and stored
    after the removal. *)
Theorem show_one_server (env : Env) (w : World) (s : Server) (calls : list (Env * Call)) :
  (∀ k1 k2 s1 s2,
     _state (exec calls initial) !! k1 = Some (VServer s1) →
     _state (exec calls initial) !! k2 = Some (VServer s2) →
     k1 = "currentServer" ∧ k2 = k1 ∧ s2 = s1)
  ∧ (_state w !! "currentServer" = Some (VServer s) → proxy_show env s = None →
     (show env w).1 = Return (VServer s)
     ∧ _state (show env w).2 !! "currentServer" = Some (VServer s)
     ∧ fresh (show env w).2 = fresh w
     ∧ filter (λ e, is_spawn e = true) (added w (show env w).2) = [])
  ∧ (_state w !! "currentServer" = Some (VServer s) → proxy_show env s = Some IOError →
     ∃ before after,
       added w (show env w).2 = before ++ EStatePop "currentServer" :: after
       ∧ Forall quiet before
       ∧ (_state (show env w).2 !! "currentServer" = None
          ∨ ∃ s', _state (show env w).2 !! "currentServer" = Some (VServer s')
                  ∧ ESpawn s' ∈ after
                  ∧ EStateSet "currentServer" (VServer s') ∈ after)).
Proof.
  split; [|split].
  - intros k1 k2 s1 s2 H1 H2.
    destruct (reachable_well_formed (exec calls initial)) as (Hservers & _ & _);
      [by exists calls|].
    pose proof (Hservers _ _ H1) as ->. pose proof (Hservers _ _ H2) as ->.
    split; [done|]. split; [done|]. congruence.
  - intros Hcur Hshow. rewrite show_ensured.
    rewrite <- (ensured_world_current env w) in Hcur.
    rewrite (show_gui_reuse _ _ _ Hcur Hshow). simpl.
    split; [done|]. split; [done|]. split.
    + unfold ensured_world. destruct (installed_flag (_state w)); [done|].
      apply installed_world_fresh.
    + rewrite (added_app _ _ (ensured_trace env w ++ [EProxyShow s
                 (settings (ensured_world env w))])).
      * apply quiet_no_spawn, Forall_app. split; [apply ensured_trace_quiet|].
        by repeat constructor.
      * simpl. by rewrite ensured_world_trace, <- app_assoc.
  - intros Hcur Hshow. rewrite show_ensured.
    rewrite <- (ensured_world_current env w) in Hcur.
    rewrite (show_gui_stale _ _ _ Hcur Hshow).
    set (w0 := ensured_world env w) in *.
    destruct (show_gui_fresh_outcome env (popped_world s w0)) as (t & Htr & Hout);
      [apply lookup_delete_eq|].
    exists (ensured_trace env w ++ [EProxyShow s (settings w0)]), t.
    split; [|split; [|done]].
    + apply added_app. rewrite Htr. simpl. unfold w0.
      rewrite ensured_world_trace. by rewrite <- !app_assoc.
    + apply Forall_app. split; [apply ensured_trace_quiet | by repeat constructor].
Qed.

(** ** Host exit *)

(** C8. [_on_application_quit] kills the process of the current server
    and returns, whether the process was alive or already dead (the
    [OSError] of [kill] is caught), and changes nothing of the state;
    without an entry ["currentServer"], as after any calls from the start
    among which there is no [show], the [KeyError] of the lookup is
    caught and the call returns having done nothing. *)
Theorem on_application_quit_spec (env : Env) (w : World) (s : Server)
    (calls : list (Env * Call)) :
  (_state w !! "currentServer" = Some (VServer s) →
     (_on_application_quit env w).1 = Return ()
     ∧ added w (_on_application_quit env w).2 = [EKill s]
     ∧ _state (_on_application_quit env w).2 = _state w
     ∧ (popen_dead env s = true → (popen_kill env (VServer s) w).1 = Raise OSError))
  ∧ (_state w !! "currentServer" = None →
     (state_item "currentServer" w).1 = Raise KeyError
     ∧ _on_application_quit env w = (Return (), w))
  ∧ (Forall (λ c, is_show c.2 = false) calls →
     _on_application_quit env (exec calls initial) = (Return (), exec calls initial)).
Proof.
  assert (_state w !! "currentServer" = None →
          (state_item "currentServer" w).1 = Raise KeyError
          ∧ _on_application_quit env w = (Return (), w)) as Hnone.
  { intros Hnone. run_py. by rewrite Hnone. }
  split; [|split; [exact Hnone|]].
  - intros Hcur. run_py. rewrite Hcur. simpl.
    destruct (popen_dead env s); simpl; rewrite (added_app _ _ [EKill s]) by done;
      repeat split; done.
  - intros Hcalls.
    assert (_state (exec calls initial) !! "currentServer" = None) as Hcur.
    { rewrite exec_frame; [done|].
      eapply Forall_impl; [exact Hcalls|]. intros [env' c]; simpl.
      destruct c; simpl; try discriminate; intros _ Hin;
        rewrite ?elem_of_cons, elem_of_nil in Hin; destruct_or!; done. }
    clear Hnone. run_py. by rewrite Hcur.
Qed.

(** ** The order of install, spawn and show *)

Lemma install_tail env w :
  bind install_callbacks
    (λ _, bind (install_host env) (λ _, state_set "installed" (VBool true))) w
  = (Return (), installed_world env w).
Proof.
  unfold installed_world. unfold bind at 1. rewrite install_callbacks_run.
  unfold bind at 1. rewrite install_host_run. reflexivity.
Qed.

Lemma registered_lookup signal cb w :
  registered signal cb w →
  ∃ l, _registered_callbacks w !! signal = Some l ∧ bool_decide (cb ∈ l) = true.
Proof.
  unfold registered. destruct (_registered_callbacks w !! signal) as [l|]; simpl.
  - intros Hin. exists l. by rewrite bool_decide_eq_true_2.
  - intros Hin. by apply elem_of_nil in Hin.
Qed.




(** ** The theorems at work *)

Lemma install_host_first_supported_witness :
  (installer Houdini maya_env initial).2 = initial
  ∧ (install_host maya_env initial).1 = Return ().
Proof.
  split.
  - apply (install_host_first_supported maya_env initial). reflexivity.
  - apply (install_host_first_supported maya_env initial).
Defined.

Lemma installers_dispatch_wrapper_witness :
  (dispatch_wrapper (installer Maya maya_env initial).2).1
    = Return (VFunction (make_threaded_wrapper maya_utils))
  ∧ (dispatch_wrapper (installer Houdini houdini_env initial).2).1
    = Return (VFunction (make_threaded_wrapper hdefereval_api))
  ∧ (dispatch_wrapper (installer Nuke nuke_env initial).2).1
    = Return (VFunction (make_threaded_wrapper nuke_api))
  ∧ (dispatch_wrapper (installer Hiero hiero_env initial).2).1
    = Return (VFunction (make_threaded_wrapper hiero_core))
  ∧ _state (installer Blender blender_env initial).2 = _state initial
  ∧ installer Houdini maya_env initial = (Raise ImportError, initial).
Proof.
  assert (supported maya_env Maya = true) as Hmaya by (vm_compute; reflexivity).
  assert (supported houdini_env Houdini = true) as Hhoudini by (vm_compute; reflexivity).
  assert (supported nuke_env Nuke = true) as Hnuke by (vm_compute; reflexivity).
  assert (supported hiero_env Hiero = true) as Hhiero by (vm_compute; reflexivity).
  assert (supported blender_env Blender = true) as Hblender by (vm_compute; reflexivity).
  assert (supported maya_env Houdini = false) as Hno by (vm_compute; reflexivity).
  pose proof (installers_dispatch_wrapper maya_env initial Maya) as (_ & H1 & _).
  pose proof (installers_dispatch_wrapper houdini_env initial Houdini) as (_ & H2 & _).
  pose proof (installers_dispatch_wrapper nuke_env initial Nuke) as (_ & H3 & _).
  pose proof (installers_dispatch_wrapper hiero_env initial Hiero) as (_ & H4 & _).
  pose proof (installers_dispatch_wrapper blender_env initial Blender) as (_ & H5 & _).
  pose proof (installers_dispatch_wrapper maya_env initial Houdini) as (_ & _ & H6 & _).
  destruct (H1 Hmaya) as (_ & R1 & _).
  destruct (H2 Hhoudini) as (_ & R2 & _).
  destruct (H3 Hnuke) as (_ & R3 & _).
  destruct (H4 Hhiero) as (_ & R4 & _).
  destruct (H5 Hblender) as (_ & R5 & _).
  split; [exact R1|]. split; [exact R2|]. split; [exact R3|]. split; [exact R4|].
  split; [exact R5 | exact (H6 Hno)].
Defined.

Lemma register_python_executable_witness :
  register_python_executable maya_env "python.exe" initial = (Raise AssertionError, initial)
  ∧ (registered_python_executable
       (register_python_executable maya_env "/usr/bin/python" initial).2).1
      = Return (VStr "/usr/bin/python")
  ∧ (registered_python_executable (exec [(maya_env, call_show)] initial)).1 = Return VNone.
Proof.
  split; [|split].
  - apply (register_python_executable_spec maya_env "python.exe" initial []). reflexivity.
  - apply (register_python_executable_spec maya_env "/usr/bin/python" initial []).
    reflexivity.
  - apply (register_python_executable_spec maya_env "python.exe" initial
             [(maya_env, call_show)]).
    repeat constructor.
Defined.



Lemma show_one_server_witness :
  (show maya_env maya_shown).1 = Return (VServer maya_server)
  ∧ ∃ before after,
      added maya_shown (show maya_gone_env maya_shown).2
        = before ++ EStatePop "currentServer" :: after
      ∧ Forall quiet before.
Proof.
  assert (_state maya_shown !! "currentServer" = Some (VServer maya_server)) as Hcur
    by (vm_compute; reflexivity).
  split.
  - pose proof (show_one_server maya_env maya_shown maya_server []) as (_ & Hreuse & _).
    apply Hreuse; [exact Hcur | reflexivity].
  - pose proof (show_one_server maya_gone_env maya_shown maya_server []) as (_ & _ & Hstale).
    destruct (Hstale Hcur eq_refl) as (before & after & Hadded & Hquiet & _).
    exists before, after. split; [exact Hadded | exact Hquiet].
Defined.

Lemma show_construction_fails_witness :
  (show blender_broken_env initial).1 = Return VNone
  ∧ _state (show blender_broken_env initial).2 !! "currentServer" = None.
Proof.
  destruct (show_construction_fails blender_broken_env initial (OtherError "OSError"))
    as (Hres & Hstate & _).
  - reflexivity.
  - left. reflexivity.
  - split; [exact Hres | exact Hstate].
Defined.

Lemma on_application_quit_spec_witness :
  (_on_application_quit maya_gone_env maya_shown).1 = Return ()
  ∧ _on_application_quit maya_env initial = (Return (), initial)
  ∧ _on_application_quit maya_env (exec [(maya_env, call_install)] initial)
    = (Return (), exec [(maya_env, call_install)] initial).
Proof.
  assert (_state maya_shown !! "currentServer" = Some (VServer maya_server)) as Hcur
    by (vm_compute; reflexivity).
  split; [|split].
  - pose proof (on_application_quit_spec maya_gone_env maya_shown maya_server [])
      as (Hkill & _ & _).
    apply Hkill, Hcur.
  - pose proof (on_application_quit_spec maya_env initial maya_server []) as (_ & Hnone & _).
    apply Hnone. reflexivity.
  - pose proof (on_application_quit_spec maya_env initial maya_server
                  [(maya_env, call_install)]) as (_ & _ & Hcalls).
    apply Hcalls. repeat constructor.
Defined.

(** * Further properties *)

(** ** The splash screen *)

Lemma animate_count_range self : (0 ≤ count (animate self) < 4)%Z.
Proof. simpl. apply Z.mod_pos_bound. lia. Qed.

Lemma after_ticks_count n : count (after_ticks n) = ((Z.of_nat n + 1) `mod` 4)%Z.
Proof.
  induction n as [|n IH]; [reflexivity|].
  change (after_ticks (S n)) with (animate (after_ticks n)).
  simpl. rewrite IH. rewrite Zplus_mod_idemp_l. f_equal. lia.
Qed.

(** X1. The splash animation runs in a cycle of four: after the timer has
    fired [n] times the counter is [(n + 1) mod 4], the label reads
    ["loading"] followed by [n mod 4] dots, and four more ticks bring
    the same widget back.  Whatever the counter was, one [animate()]
    brings it into the range from 0 to 3. *)
Theorem splash_animation_cycle (n : nat) (self : SplashWidget) :
  count (after_ticks n) = ((Z.of_nat n + 1) `mod` 4)%Z
  ∧ label (after_ticks n) = "loading" +:+ string_mul "." (n `mod` 4)
  ∧ after_ticks (n + 4) = after_ticks n
  ∧ (0 ≤ count (animate self) < 4)%Z.
Proof.
  assert (∀ m, label (after_ticks m) = "loading" +:+ string_mul "." (m `mod` 4)) as Hlabel.
  { intros [|m]; [reflexivity|].
    change (after_ticks (S m)) with (animate (after_ticks m)).
    unfold animate at 1. cbn [label]. rewrite after_ticks_count. do 2 f_equal.
    replace (Z.of_nat m + 1)%Z with (Z.of_nat (S m)) by lia.
    apply Nat2Z.inj. rewrite Z2Nat.id by (apply Z.mod_pos_bound; lia).
    by rewrite Nat2Z.inj_mod. }
  split; [apply after_ticks_count|]. split; [apply Hlabel|].
  split; [|apply animate_count_range].
  assert (∀ a b, count a = count b → label a = label b → a = b) as Hext.
  { intros [] []; simpl; congruence. }
  apply Hext.
  - rewrite !after_ticks_count. rewrite Nat2Z.inj_add.
    replace (Z.of_nat n + Z.of_nat 4 + 1)%Z with (Z.of_nat n + 1 + 1 * 4)%Z by lia.
    apply Z_mod_plus_full.
  - rewrite !Hlabel. do 2 f_equal.
    replace (n + 4) with (n + 1 * 4) by lia. apply Nat.Div0.mod_add.
Qed.

(** ** The dispatch wrapper, again *)

(** X2. The wrapper registered last is the one [dispatch_wrapper()]
    returns; a registration that is rejected with [TypeError] leaves the
    wrapper registered before in place. *)
Theorem register_dispatch_wrapper_last (first second : Function) (w : World) :
  documented_shape first →
  (documented_shape second →
     (dispatch_wrapper
        (register_dispatch_wrapper second (register_dispatch_wrapper first w).2).2).1
       = Return (VFunction second))
  ∧ (¬ documented_shape second →
     (register_dispatch_wrapper second (register_dispatch_wrapper first w).2).1
       = Raise TypeError
     ∧ (dispatch_wrapper
          (register_dispatch_wrapper second (register_dispatch_wrapper first w).2).2).1
         = Return (VFunction first)).
Proof.
  intros Hfirst. rewrite (register_dispatch_wrapper_shape _ _ Hfirst). split.
  - intros Hsecond. rewrite (register_dispatch_wrapper_shape _ _ Hsecond).
    unfold_py. simpl. by rewrite lookup_insert_eq.
  - intros Hsecond. rewrite (register_dispatch_wrapper_mismatch _ _ Hsecond).
    split; [done|]. unfold_py. simpl. by rewrite lookup_insert_eq.
Qed.

Lemma register_dispatch_wrapper_last_witness :
  (dispatch_wrapper
     (register_dispatch_wrapper user_wrapper
        (register_dispatch_wrapper (make_threaded_wrapper nuke_api) initial).2).2).1
    = Return (VFunction user_wrapper)
  ∧ (dispatch_wrapper
       (register_dispatch_wrapper narrow_wrapper
          (register_dispatch_wrapper user_wrapper initial).2).2).1
      = Return (VFunction user_wrapper).
Proof.
  split.
  - apply (register_dispatch_wrapper_last (make_threaded_wrapper nuke_api) user_wrapper initial).
    + vm_compute. repeat split; discriminate.
    + vm_compute. repeat split; discriminate.
  - apply (register_dispatch_wrapper_last user_wrapper narrow_wrapper initial).
    + vm_compute. repeat split; discriminate.
    + vm_compute. intros (_ & Hvar & _). apply Hvar. reflexivity.
Defined.

(** ** What the calls leave alone *)

(** X3. No sequence of calls changes an entry of the state dictionary
    whose key none of the calls may write: the wrapper functions write
    ["dispatchWrapper"] only, [install] and [install_host] besides
    ["installed"], [show] besides ["currentServer"], the two executable
    registrations their own key, and the other calls nothing. *)
Theorem calls_frame (calls : list (Env * Call)) (w : World) (key : string) :
  Forall (λ c, key ∉ may_write c.2) calls →
  _state (exec calls w) !! key = _state w !! key.
Proof. apply exec_frame. Qed.

Lemma calls_frame_witness :
  _state (exec [(maya_env, call_show); (maya_env, call_uninstall)]
            (register_pyqt5 "/opt/pyqt5" initial).2) !! "pyqt5"
    = Some (VStr "/opt/pyqt5").
Proof.
  rewrite (calls_frame [(maya_env, call_show); (maya_env, call_uninstall)]
             (register_pyqt5 "/opt/pyqt5" initial).2 "pyqt5").
  - vm_compute. reflexivity.
  - repeat constructor; simpl; intros Hin;
      rewrite ?elem_of_cons, elem_of_nil in Hin; destruct_or!; discriminate.
Defined.

Lemma installed_flag_insert key v st :
  (key = "installed" → truthy v = true) →
  preserves (λ st, installed_flag st = true) st (<[key:=v]> st).
Proof.
  unfold preserves, installed_flag. intros Hv Hflag.
  rewrite lookup_insert. case_decide; [by apply Hv | done].
Qed.

Lemma installed_flag_delete key st :
  key ≠ "installed" →
  preserves (λ st, installed_flag st = true) st (delete key st).
Proof. unfold preserves, installed_flag. intros Hkey Hflag. by rewrite lookup_delete_ne. Qed.

(** X4. Once the ["installed"] flag is set, no call unsets it: not
    [uninstall()], which leaves the whole state dictionary as it is, and
    not a call that raises. *)
Theorem installed_flag_stays (env : Env) (c : Call) (w : World) :
  installed_flag (_state w) = true →
  installed_flag (_state (run env c w)) = true
  ∧ _state (uninstall w).2 = _state w.
Proof.
  intros Hflag. split.
  - revert Hflag.
    assert (∀ A (m : M A), steps (preserves (λ st, installed_flag st = true)) m →
              installed_flag (_state w) = true → installed_flag (_state (m w).2) = true)
      as Hsteps by (intros A m Hm; apply Hm).
    destruct c; unfold run; apply Hsteps.
    + apply steps_register_dispatch_wrapper; [apply _ | intros; by apply installed_flag_insert].
    + apply steps_deregister_dispatch_wrapper; [apply _ | intros; by apply installed_flag_delete].
    + apply steps_state_get, _.
    + apply steps_state_get, _.
    + apply steps_install; [apply _ | intros; by apply installed_flag_insert ..].
    + apply steps_uninstall, _.
    + apply steps_show;
        [apply _ | intros; by (apply installed_flag_insert || apply installed_flag_delete) ..].
    + apply steps_install_callbacks, _.
    + apply steps_uninstall_callbacks, _.
    + apply steps_register_python_executable; [apply _ | intros; by apply installed_flag_insert].
    + apply steps_state_get, _.
    + apply steps_register_pyqt5; [apply _ | intros; by apply installed_flag_insert].
    + apply steps_install_host; [apply _ | intros; by apply installed_flag_insert].
    + apply steps_on_application_quit, _.
  - symmetry. exact (steps_uninstall eq w).
Qed.

Lemma installed_flag_stays_witness :
  installed_flag (_state (run maya_env call_uninstall maya_shown)) = true.
Proof.
  apply (installed_flag_stays maya_env call_uninstall maya_shown).
  vm_compute. reflexivity.
Defined.

(** X5. In every world reached from the start, an entry
    ["currentServer"] holds a server and comes with the ["installed"]
    flag set: no server is stored before the install has gone through. *)
Theorem current_server_invariant (calls : list (Env * Call)) (v : Value) :
  _state (exec calls initial) !! "currentServer" = Some v →
  (∃ s, v = VServer s) ∧ installed_flag (_state (exec calls initial)) = true.
Proof.
  intros Hcur.
  destruct (reachable_well_formed (exec calls initial)) as (_ & Hserver & Hflag);
    [by exists calls|].
  split; [by apply Hserver | apply Hflag; by eexists].
Qed.

Lemma current_server_invariant_witness :
  (∃ s, VServer maya_server = VServer s)
  ∧ installed_flag (_state (exec [(maya_env, call_show)] initial)) = true.
Proof.
  apply (current_server_invariant [(maya_env, call_show)] (VServer maya_server)).
  vm_compute. reflexivity.
Defined.

(** ** Callbacks: install, uninstall, install again *)

Lemma install_callbacks_registry w :
  _registered_callbacks (install_callbacks w).2
    = <["pluginToggled" := callbacks_of "pluginToggled" w ++ [cb_toggle_plugin]]>
        (<["instanceToggled" := callbacks_of "instanceToggled" w ++ [cb_toggle_instance]]>
           (_registered_callbacks w)).
Proof. unfold callbacks_of. run_py. by rewrite lookup_insert_ne. Qed.

Lemma uninstall_callbacks_registry w l1 l2 :
  _registered_callbacks w !! "instanceToggled" = Some l1 → cb_toggle_instance ∈ l1 →
  _registered_callbacks w !! "pluginToggled" = Some l2 → cb_toggle_plugin ∈ l2 →
  (uninstall_callbacks w).1 = Return ()
  ∧ _state (uninstall_callbacks w).2 = _state w
  ∧ _registered_callbacks (uninstall_callbacks w).2
    = <["pluginToggled" := list_remove cb_toggle_plugin l2]>
        (<["instanceToggled" := list_remove cb_toggle_instance l1]>
           (_registered_callbacks w)).
Proof.
  intros H1 Hin1 H2 Hin2. run_py. rewrite H1. rewrite bool_decide_eq_true_2 by done.
  simpl. rewrite lookup_insert_ne by done. rewrite H2.
  by rewrite bool_decide_eq_true_2 by done.
Qed.

Lemma list_remove_present (cb : Callback) l : cb ∈ l → list_remove cb l ++ [cb] ≡ₚ l.
Proof.
  induction l as [|x l IH]; simpl.
  - intros Hin. by apply elem_of_nil in Hin.
  - intros Hin. case_decide as Hx.
    + subst. symmetry. apply Permutation_cons_append.
    + apply elem_of_cons in Hin as [->|Hin]; [done|]. simpl. by rewrite IH.
Qed.

(** X6. [uninstall_callbacks()] after [install_callbacks()] returns and
    leaves under every signal the callbacks that were there before, and
    the state dictionary as it was. *)
Theorem callbacks_round_trip (w : World) (signal : string) :
  (uninstall_callbacks (install_callbacks w).2).1 = Return ()
  ∧ callbacks_of signal (uninstall_callbacks (install_callbacks w).2).2
      ≡ₚ callbacks_of signal w
  ∧ _state (uninstall_callbacks (install_callbacks w).2).2 = _state w.
Proof.
  pose proof (install_callbacks_registry w) as Hreg.
  destruct (uninstall_callbacks_registry (install_callbacks w).2
              (callbacks_of "instanceToggled" w ++ [cb_toggle_instance])
              (callbacks_of "pluginToggled" w ++ [cb_toggle_plugin]))
    as (Hres & Hstate & Hreg').
  - rewrite Hreg. rewrite lookup_insert_ne by done. apply lookup_insert_eq.
  - apply elem_of_app. right. by left.
  - rewrite Hreg. apply lookup_insert_eq.
  - apply elem_of_app. right. by left.
  - split; [done|]. split; [|by rewrite Hstate].
    unfold callbacks_of at 1. rewrite Hreg', Hreg.
    rewrite lookup_insert. case_decide as Hp.
    + subst. simpl. apply list_remove_app_new.
    + rewrite lookup_insert. case_decide as Hi.
      * subst. simpl. apply list_remove_app_new.
      * by rewrite !lookup_insert_ne.
Qed.

Lemma uninstall_first_missing w :
  ¬ registered "instanceToggled" cb_toggle_instance w →
  uninstall w
    = (Raise (match _registered_callbacks w !! "instanceToggled" with
             | Some _ => ValueError
             | None => KeyError
             end),
       emit [EDeregisterCallback "instanceToggled" cb_toggle_instance] w).
Proof.
  unfold registered, emit. intros Hno. run_py.
  destruct (_registered_callbacks w !! "instanceToggled") as [l|]; [|done].
  simpl in Hno. by rewrite bool_decide_eq_false_2.
Qed.

(** X7. [uninstall()] in a world where [_toggle_instance] is not
    registered raises: [KeyError] when ["instanceToggled"] is no signal
    of the registry, [ValueError] when it is; the registry and the state
    stay as they are and the shutdown line is not written. *)
Theorem uninstall_not_installed (w : World) :
  ¬ registered "instanceToggled" cb_toggle_instance w →
  (uninstall w).1
    = Raise (match _registered_callbacks w !! "instanceToggled" with
             | Some _ => ValueError
             | None => KeyError
             end)
  ∧ _registered_callbacks (uninstall w).2 = _registered_callbacks w
  ∧ _state (uninstall w).2 = _state w
  ∧ filter (λ e, is_stdout e = true) (added w (uninstall w).2) = [].
Proof.
  intros Hno. rewrite (uninstall_first_missing _ Hno). simpl.
  repeat split; try done.
  by rewrite (added_app _ _ [EDeregisterCallback "instanceToggled" cb_toggle_instance]).
Qed.

Lemma uninstall_not_installed_witness :
  (uninstall initial).1 = Raise KeyError
  ∧ (uninstall maya_uninstalled).1 = Raise ValueError.
Proof.
  split.
  - apply (uninstall_not_installed initial).
    vm_compute. intros Hin. inversion Hin.
  - apply (uninstall_not_installed maya_uninstalled).
    vm_compute. intros Hin. inversion Hin.
Defined.

Lemma install_flagged env w :
  installed_flag (_state w) = true →
  install env w
    = bind uninstall
        (λ _, bind install_callbacks
                (λ _, bind (install_host env)
                        (λ _, state_set "installed" (VBool true))))
        (emit [EStdout ("Already installed, uninstalling.." +:+ newline)] w).
Proof.
  unfold installed_flag. intros Hflag. unfold install.
  rewrite (bind_return _ _ w (default VNone (_state w !! "installed")) w) by reflexivity.
  rewrite Hflag. reflexivity.
Qed.

(** X8. [uninstall()] does not take the ["installed"] flag back, so an
    [install()] that finds the flag set but [_toggle_instance] not
    registered, as after [install(); uninstall()], raises [KeyError] or
    [ValueError] from the deregistration: it registers nothing, runs no
    host installer and leaves the state as it is. *)
Theorem install_after_uninstall (env : Env) (w : World) :
  installed_flag (_state w) = true →
  ¬ registered "instanceToggled" cb_toggle_instance w →
  (install env w).1
    = Raise (match _registered_callbacks w !! "instanceToggled" with
             | Some _ => ValueError
             | None => KeyError
             end)
  ∧ _registered_callbacks (install env w).2 = _registered_callbacks w
  ∧ _state (install env w).2 = _state w
  ∧ settings (install env w).2 = settings w
  ∧ added w (install env w).2
    = [EStdout ("Already installed, uninstalling.." +:+ newline);
       EDeregisterCallback "instanceToggled" cb_toggle_instance].
Proof.
  intros Hflag Hno.
  pose proof (uninstall_first_missing
                (emit [EStdout ("Already installed, uninstalling.." +:+ newline)] w) Hno)
    as Hun.
  assert (install env w = uninstall
            (emit [EStdout ("Already installed, uninstalling.." +:+ newline)] w)) as ->.
  { rewrite (install_flagged _ _ Hflag). unfold bind at 1. by rewrite Hun. }
  rewrite Hun. simpl.
  repeat split; try done.
  apply added_app. simpl. by rewrite <- app_assoc.
Qed.

Lemma install_after_uninstall_witness :
  (install maya_env maya_uninstalled).1 = Raise ValueError.
Proof.
  apply (install_after_uninstall maya_env maya_uninstalled).
  - vm_compute. reflexivity.
  - vm_compute. intros Hin. inversion Hin.
Defined.

Lemma installed_world_registry env w :
  _registered_callbacks (installed_world env w) = _registered_callbacks (install_callbacks w).2.
Proof.
  unfold installed_world. rewrite install_host_shape.
  by destruct (first_supported env).
Qed.

(** X9. An [install()] that finds the flag set and the two toggle
    callbacks registered does not pile callbacks up: under every signal
    the registry holds afterwards the callbacks it held before. *)
Theorem reinstall_keeps_callbacks (env : Env) (w : World) (signal : string) :
  installed_flag (_state w) = true → toggles_registered w →
  (install env w).1 = Return ()
  ∧ callbacks_of signal (install env w).2 ≡ₚ callbacks_of signal w.
Proof.
  intros Hflag Htoggles. rewrite (install_flagged _ _ Hflag).
  set (w1 := emit _ w).
  destruct Htoggles as [(l1 & H1 & Hin1%bool_decide_eq_true)%registered_lookup
                        (l2 & H2 & Hin2%bool_decide_eq_true)%registered_lookup].
  assert (uninstall w1 = (Return (), (uninstall w1).2)
          ∧ _registered_callbacks (uninstall w1).2
            = <["pluginToggled" := list_remove cb_toggle_plugin l2]>
                (<["instanceToggled" := list_remove cb_toggle_instance l1]>
                   (_registered_callbacks w))) as [Hrun Hreg].
  { unfold w1, emit. run_py. rewrite H1. rewrite bool_decide_eq_true_2 by done.
    simpl. rewrite lookup_insert_ne by done. rewrite H2.
    by rewrite bool_decide_eq_true_2 by done. }
  rewrite (bind_return _ _ w1 () (uninstall w1).2) by exact Hrun.
  rewrite install_tail. cbn [fst snd]. split; [done|].
  unfold callbacks_of at 1.
  rewrite installed_world_registry, install_callbacks_registry.
  unfold callbacks_of at 1 2. rewrite Hreg.
  rewrite lookup_insert_eq. rewrite (lookup_insert_ne _ "pluginToggled" "instanceToggled") by done.
  rewrite lookup_insert_eq. simpl.
  rewrite lookup_insert. case_decide as Hp.
  - subst. unfold callbacks_of. rewrite H2. simpl. by apply list_remove_present.
  - rewrite lookup_insert. case_decide as Hi.
    + subst. unfold callbacks_of. rewrite H1. simpl. by apply list_remove_present.
    + unfold callbacks_of. by rewrite !lookup_insert_ne.
Qed.

Lemma reinstall_keeps_callbacks_witness :
  callbacks_of "instanceToggled" (install maya_env maya_shown).2
    ≡ₚ callbacks_of "instanceToggled" maya_shown.
Proof.
  apply (reinstall_keeps_callbacks maya_env maya_shown "instanceToggled").
  - vm_compute. reflexivity.
  - split; vm_compute; repeat constructor.
Defined.

(** ** What [install_host] leaves behind *)

(** X10. [install_host()] hooks [_on_application_quit] at most once, and
    only when a host is supported and Qt is loaded: to [aboutToQuit] of
    the application if there is one, else with [atexit].  Without Qt the
    server is not killed at exit. *)
Theorem install_host_quit_hook (env : Env) (w : World) :
  filter (λ e, is_quit_hook e = true) (added w (install_host env w).2)
    = match first_supported env with
      | Some _ =>
          if qt_loaded env
          then [if qapp_instance env then EAboutToQuitConnect else EAtexitRegister]
          else []
      | None => []
      end.
Proof.
  rewrite (added_app _ _ (host_install_trace env)).
  - unfold host_install_trace, host_trace, connect_trace.
    destruct (first_supported env) as [h|]; [|done].
    destruct h, (qt_loaded env), (qapp_instance env); reflexivity.
  - rewrite install_host_shape. unfold host_install_trace.
    destruct (first_supported env); simpl; [done | by rewrite app_nil_r].
Qed.

(** X11. After [install_host()], [dispatch_wrapper()] returns the
    wrapper of the first supported host if this host brings one, and
    otherwise (Blender, or no host at all) what it returned before: a
    wrapper registered by the caller is replaced in Maya, Houdini, Nuke
    and Hiero and kept elsewhere. *)
Theorem install_host_wrapper (env : Env) (w : World) :
  (dispatch_wrapper (install_host env w).2).1
    = Return (match host_wrapper env with
              | Some f => VFunction f
              | None => default VNone (_state w !! "dispatchWrapper")
              end).
Proof.
  rewrite install_host_shape. unfold host_wrapper, dispatch_wrapper, state_get.
  destruct (first_supported env) as [h|]; [|done].
  unfold host_world. simpl. destruct (host_api h); simpl; [|done].
  by rewrite lookup_insert_eq.
Qed.

(** X12. The installer that goes through sets the two GUI settings
    together: [ContextLabel] is the name of the host and [WindowTitle]
    is ["Pyblish (<name>)"]; every other setting stays, and without a
    supported host all settings stay. *)
Theorem install_host_settings (env : Env) (w : World) :
  match first_supported env with
  | Some h =>
      settings (install_host env w).2 !! "ContextLabel" = Some (host_label h)
      ∧ settings (install_host env w).2 !! "WindowTitle"
          = Some ("Pyblish (" +:+ host_label h +:+ ")")
      ∧ ∀ name, name ≠ "ContextLabel" → name ≠ "WindowTitle" →
          settings (install_host env w).2 !! name = settings w !! name
  | None => settings (install_host env w).2 = settings w
  end.
Proof.
  rewrite install_host_shape. destruct (first_supported env) as [h|]; [|done].
  unfold host_world. simpl. split; [|split].
  - rewrite lookup_insert_ne by done. apply lookup_insert_eq.
  - apply lookup_insert_eq.
  - intros name H1 H2. by rewrite !lookup_insert_ne.
Qed.

(** ** [show] and [current_server] *)

Lemma ensure_installed_world env w :
  ensure_installed env w = (Return (), ensured_world env w).
Proof.
  unfold ensured_world. destruct (installed_flag (_state w)) eqn:Hflag.
  - by apply ensure_installed_again.
  - by apply ensure_installed_fresh.
Qed.

Lemma ensured_world_well_formed env w :
  well_formed (_state w) → well_formed (_state (ensured_world env w)).
Proof.
  intros Hwf.
  change (ensured_world env w) with ((Return (), ensured_world env w).2).
  rewrite <- (ensure_installed_world env w).
  revert Hwf. apply (steps_ensure_installed (preserves well_formed)).
  - intros st f. by apply well_formed_insert.
  - intros st. by apply well_formed_insert.
Qed.

Lemma ensured_world_flag env w : installed_flag (_state (ensured_world env w)) = true.
Proof.
  unfold ensured_world. destruct (installed_flag (_state w)) eqn:Hflag; [done|].
  apply installed_world_flag.
Qed.

Lemma show_gui_none_agree env w v :
  _state w !! "currentServer" = None →
  (show_gui env w).1 = Return v →
  _state (show_gui env w).2 !! "currentServer"
    = match v with VServer s => Some v | _ => None end
  ∧ (v = VNone ∨ ∃ s, v = VServer s).
Proof.
  intros Hnone. destruct (construction_error env) as [e|] eqn:Hctor.
  - destruct (show_gui_construction_fails env w e Hnone Hctor) as (-> & -> & _).
    intros [= <-]. split; [done | by left].
  - destruct (show_gui_spawn env w Hnone Hctor) as (-> & -> & _).
    destruct (proxy_show env (server_of env w)); [done|].
    intros [= <-]. split; [apply lookup_insert_eq | right; by eexists].
Qed.

Lemma show_gui_agree env w v :
  current_is_server (_state w) →
  (show_gui env w).1 = Return v →
  _state (show_gui env w).2 !! "currentServer"
    = match v with VServer s => Some v | _ => None end
  ∧ (v = VNone ∨ ∃ s, v = VServer s).
Proof.
  intros Htyped.
  destruct (_state w !! "currentServer") as [v0|] eqn:Hcur;
    [|by apply show_gui_none_agree].
  destruct (Htyped v0 Hcur) as [s ->].
  destruct (proxy_show env s) as [e|] eqn:Hshow.
  - destruct (decide (e = IOError)) as [->|He].
    + rewrite (show_gui_stale _ _ _ Hcur Hshow).
      apply show_gui_none_agree. apply lookup_delete_eq.
    + by rewrite (show_gui_raises _ _ _ _ Hcur Hshow He).
  - rewrite (show_gui_reuse _ _ _ Hcur Hshow). simpl.
    intros [= <-]. split; [done | right; by eexists].
Qed.

(** X13. In a world reached from the start, what [show()] returns is
    what [current_server()] returns right after: the server that is now
    the current one, or [None] with no current server. *)
Theorem show_current_server (env : Env) (w : World) (v : Value) :
  reachable w → (show env w).1 = Return v →
  (current_server (show env w).2).1 = Return v
  ∧ (v = VNone ∨ ∃ s, v = VServer s).
Proof.
  intros (_ & Htyped & _)%reachable_well_formed%(ensured_world_well_formed env).
  rewrite show_ensured. intros Hres.
  destruct (show_gui_agree _ _ _ Htyped Hres) as [Hcur Hv].
  split; [|done]. unfold current_server, state_get. simpl. rewrite Hcur.
  by destruct Hv as [->|[s ->]].
Qed.

Lemma show_current_server_witness :
  (current_server (show maya_env initial).2).1 = Return (VServer maya_server).
Proof.
  apply (show_current_server maya_env initial (VServer maya_server)).
  - exists []. reflexivity.
  - vm_compute. reflexivity.
Defined.

(** X14. A second [show()] after one that returned a server, with the
    server answering, returns the same server, starts no process and
    leaves the state dictionary as the first call left it. *)
Theorem show_twice (env env' : Env) (w : World) (s : Server) :
  reachable w → (show env w).1 = Return (VServer s) → proxy_show env' s = None →
  (show env' (show env w).2).1 = Return (VServer s)
  ∧ _state (show env' (show env w).2).2 = _state (show env w).2
  ∧ filter (λ e, is_spawn e = true) (added (show env w).2 (show env' (show env w).2).2) = [].
Proof.
  intros Hreach Hres Hshow.
  pose proof (reachable_well_formed w Hreach) as Hwf.
  apply (show_well_formed env) in Hwf.
  destruct (show_current_server env w _ Hreach Hres) as [Hcur _].
  unfold current_server, state_get in Hcur. simpl in Hcur.
  set (w1 := (show env w).2) in *.
  assert (_state w1 !! "currentServer" = Some (VServer s)) as Hcur'.
  { destruct (_state w1 !! "currentServer") as [v|]; simpl in Hcur; [|done]. congruence. }
  assert (installed_flag (_state w1) = true) as Hflag.
  { destruct Hwf as (_ & _ & Himplies). apply Himplies. by eexists. }
  rewrite (show_again _ _ Hflag), (show_gui_reuse _ _ _ Hcur' Hshow). simpl.
  split; [done|]. split; [done|].
  by rewrite (added_app _ _ [EProxyShow s (settings w1)]).
Qed.

Lemma show_twice_witness :
  (show maya_env (show maya_env initial).2).1 = Return (VServer maya_server).
Proof.
  apply (show_twice maya_env maya_env initial maya_server).
  - exists []. reflexivity.
  - vm_compute. reflexivity.
  - reflexivity.
Defined.

Lemma on_application_quit_none env w :
  _state w !! "currentServer" = None → _on_application_quit env w = (Return (), w).
Proof. intros Hnone. run_py. by rewrite Hnone. Qed.

(** X15. When the new server does not answer the show call, [show()]
    raises what the call raised: the process was started, but the server
    is not stored, so that [_on_application_quit] afterwards has no
    process to kill. *)
Theorem show_new_server_mute (env env' : Env) (w : World) (e : Exn) :
  _state w !! "currentServer" = None →
  construction_error env = None →
  proxy_show env (server_of env (ensured_world env w)) = Some e →
  (show env w).1 = Raise e
  ∧ ESpawn (server_of env (ensured_world env w)) ∈ added w (show env w).2
  ∧ _state (show env w).2 !! "currentServer" = None
  ∧ _on_application_quit env' (show env w).2 = (Return (), (show env w).2).
Proof.
  intros Hnone Hctor Hshow. rewrite show_ensured.
  rewrite <- (ensured_world_current env w) in Hnone.
  destruct (show_gui_spawn env _ Hnone Hctor) as (Hres & Hstate & Htrace).
  rewrite Hshow in Hres, Hstate, Htrace.
  assert (_state (show_gui env (ensured_world env w)).2 !! "currentServer" = None) as Hcur
    by (by rewrite Hstate).
  split; [done|]. split; [|split; [done | by apply on_application_quit_none]].
  rewrite ensured_world_trace, <- app_assoc in Htrace.
  rewrite (added_app _ _ _ Htrace).
  apply elem_of_app. right. apply elem_of_app. right. apply elem_of_app. left.
  right. by left.
Qed.

Lemma show_new_server_mute_witness :
  (show maya_mute_env initial).1 = Raise (OtherError "socket.timeout")
  ∧ _state (show maya_mute_env initial).2 !! "currentServer" = None.
Proof.
  pose proof (show_new_server_mute maya_mute_env maya_env initial (OtherError "socket.timeout"))
    as Hmute.
  destruct Hmute as (Hres & _ & Hstate & _).
  - reflexivity.
  - reflexivity.
  - reflexivity.
  - split; [exact Hres | exact Hstate].
Defined.

(** X16. Only [IOError] makes [show()] give a current server up: when
    its show call raises one of the built-in exceptions that are neither
    [IOError] nor a subclass of it ([TypeError], [KeyError],
    [ValueError], [ImportError], [AssertionError], [RuntimeError],
    [AttributeError]), [show()] raises it, the entry ["currentServer"]
    stays, and no process is started. *)
Theorem show_other_error (env : Env) (w : World) (s : Server) (e : Exn) :
  _state w !! "currentServer" = Some (VServer s) →
  proxy_show env s = Some e → plain_error e = true →
  (show env w).1 = Raise e
  ∧ _state (show env w).2 !! "currentServer" = Some (VServer s)
  ∧ filter (λ e, is_spawn e = true) (added w (show env w).2) = []
  ∧ EStatePop "currentServer" ∉ added w (show env w).2.
Proof.
  intros Hcur Hshow Hplain.
  assert (e ≠ IOError) as He by (intros ->; discriminate).
  rewrite show_ensured.
  rewrite <- (ensured_world_current env w) in Hcur.
  rewrite (show_gui_raises _ _ _ _ Hcur Hshow He). simpl.
  split; [done|]. split; [done|].
  assert (Forall quiet (ensured_trace env w
                        ++ [EProxyShow s (settings (ensured_world env w))])) as Hquiet.
  { apply Forall_app. split; [apply ensured_trace_quiet | by repeat constructor]. }
  rewrite (added_app _ _ (ensured_trace env w
                          ++ [EProxyShow s (settings (ensured_world env w))]))
    by (simpl; by rewrite ensured_world_trace, <- app_assoc).
  split; [by apply quiet_no_spawn|].
  intros [Hin|Hin]%elem_of_app.
  - unfold ensured_trace, install_trace, host_install_trace, callbacks_trace,
      host_trace, connect_trace in Hin.
    destruct (installed_flag (_state w)); [by apply elem_of_nil in Hin|].
    destruct (first_supported env) as [[]|], (qt_loaded env), (qapp_instance env);
      simpl in Hin; rewrite ?elem_of_cons, elem_of_nil in Hin; destruct_or!; discriminate.
  - rewrite elem_of_cons, elem_of_nil in Hin. destruct_or!; discriminate.
Qed.

Lemma show_other_error_witness :
  (show maya_confused_env maya_shown).1 = Raise RuntimeError
  ∧ _state (show maya_confused_env maya_shown).2 !! "currentServer"
    = Some (VServer maya_server).
Proof.
  pose proof (show_other_error maya_confused_env maya_shown maya_server RuntimeError)
    as Hother.
  destruct Hother as (Hres & Hstate & _).
  - vm_compute. reflexivity.
  - reflexivity.
  - reflexivity.
  - split; [exact Hres | exact Hstate].
Defined.

(** ** The [on_shown] callback and the splash screen *)

Lemma show_gui_spawn_registry env w :
  _state w !! "currentServer" = None → construction_error env = None →
  _registered_callbacks (show_gui env w).2
    = <["pyblishQmlShown" := callbacks_of "pyblishQmlShown" w ++ [shown_callback env w]]>
        (_registered_callbacks w).
Proof.
  intros Hcur [Hservice Hserver]%construction_error_none.
  unfold callbacks_of, shown_callback, closure_of, splash_of.
  run_py. rewrite Hcur, Hservice, Hserver. simpl.
  destruct (qt_loaded env), (qapp_instance env); simpl;
    destruct (proxy_show env _); reflexivity.
Qed.

Lemma on_shown_registered env closure splash w :
  registered "pyblishQmlShown" (cb_on_shown closure splash) w →
  (on_shown env closure splash w).1 = Return VNone
  ∧ _state (on_shown env closure splash w).2 = _state w
  ∧ trace (on_shown env closure splash w).2
    = trace w ++ close_trace env splash
      ++ [EDeregisterCallback "pyblishQmlShown" (cb_on_shown closure splash)]
  ∧ callbacks_of "pyblishQmlShown" (on_shown env closure splash w).2
      ++ [cb_on_shown closure splash]
      ≡ₚ callbacks_of "pyblishQmlShown" w.
Proof.
  intros Hreg. pose proof Hreg as (l & Hl & Hin)%registered_lookup.
  unfold close_trace, callbacks_of. run_py.
  destruct splash as [s|]; simpl; [destruct (splash_deleted env s); simpl|];
    rewrite Hl, Hin; simpl; rewrite lookup_insert_eq; simpl;
    (split; [done|]; split; [done|]; split; [by norm_trace|]);
    apply list_remove_present; by apply bool_decide_eq_true in Hin.
Qed.

(** X17. A [show()] that starts a server leaves its [on_shown] registered
    under ["pyblishQmlShown"].  A call of a registered [on_shown] returns
    [None], closes the splash screen if there is one that is not yet
    deleted, takes itself out of the registry once, and leaves the state
    dictionary as it is. *)
Theorem on_shown_later (env env' : Env) (w w' : World) (closure : nat)
    (splash : option Splash) :
  (_state w !! "currentServer" = None → construction_error env = None →
     registered "pyblishQmlShown" (shown_callback env (ensured_world env w)) (show env w).2)
  ∧ (registered "pyblishQmlShown" (cb_on_shown closure splash) w' →
     (on_shown env' closure splash w').1 = Return VNone
     ∧ _state (on_shown env' closure splash w').2 = _state w'
     ∧ added w' (on_shown env' closure splash w').2
       = close_trace env' splash
         ++ [EDeregisterCallback "pyblishQmlShown" (cb_on_shown closure splash)]
     ∧ callbacks_of "pyblishQmlShown" (on_shown env' closure splash w').2
         ++ [cb_on_shown closure splash]
         ≡ₚ callbacks_of "pyblishQmlShown" w').
Proof.
  split.
  - intros Hnone Hctor. rewrite show_ensured.
    rewrite <- (ensured_world_current env w) in Hnone.
    unfold registered. rewrite (show_gui_spawn_registry _ _ Hnone Hctor).
    rewrite lookup_insert_eq. simpl. apply elem_of_app. right. by left.
  - intros Hreg.
    destruct (on_shown_registered env' closure splash w' Hreg) as (Hres & Hstate & Htr & Hcb).
    split; [done|]. split; [done|]. split; [by apply added_app | done].
Qed.

Lemma on_shown_later_witness :
  registered "pyblishQmlShown" (shown_callback maya_env (ensured_world maya_env initial))
    maya_shown
  ∧ (on_shown maya_gone_env 1 (Some {| splash_id := 0 |}) maya_shown).1 = Return VNone.
Proof.
  pose proof (on_shown_later maya_env maya_gone_env initial maya_shown 1
                (Some {| splash_id := 0 |})) as [Hreg Hlater].
  split.
  - apply Hreg; reflexivity.
  - apply Hlater. vm_compute. repeat constructor.
Defined.

Lemma splash_of_none env w :
  qt_loaded env && qapp_instance env = false → splash_of env w = None.
Proof. unfold splash_of. by intros ->. Qed.

Lemma show_gui_no_splash_fresh env w :
  qt_loaded env && qapp_instance env = false →
  _state w !! "currentServer" = None →
  ∃ t, trace (show_gui env w).2 = trace w ++ t
       ∧ Forall (λ e, is_splash_event e = false) t.
Proof.
  intros Hqt Hnone. destruct (construction_error env) as [e|] eqn:Hctor.
  - destruct (show_gui_construction_fails env w e Hnone Hctor) as (_ & _ & Htr & _).
    eexists. split; [exact Htr|].
    unfold splash_trace, close_trace. rewrite (splash_of_none _ _ Hqt).
    by repeat constructor.
  - destruct (show_gui_spawn env w Hnone Hctor) as (_ & _ & Htr).
    eexists. split; [exact Htr|].
    unfold splash_trace. rewrite (splash_of_none _ _ Hqt).
    destruct (proxy_show env _); by repeat constructor.
Qed.

Lemma ensured_trace_no_splash env w :
  Forall (λ e, is_splash_event e = false) (ensured_trace env w).
Proof.
  unfold ensured_trace. destruct (installed_flag (_state w)); [constructor|].
  unfold install_trace, host_install_trace, callbacks_trace.
  destruct (first_supported env) as [h|]; [|by repeat constructor].
  unfold host_trace, connect_trace.
  destruct h, (qt_loaded env), (qapp_instance env); by repeat constructor.
Qed.

(** X18. Without Qt, or without a Qt application, [show()] in a world
    reached from the start neither shows nor closes a splash screen,
    whatever else happens in the call. *)
Theorem show_without_qt (env : Env) (w : World) :
  reachable w → qt_loaded env && qapp_instance env = false →
  filter (λ e, is_splash_event e = true) (added w (show env w).2) = [].
Proof.
  intros (_ & Htyped & _)%reachable_well_formed%(ensured_world_well_formed env) Hqt.
  rewrite show_ensured.
  pose proof (ensured_world_trace env w) as Htr0.
  pose proof (ensured_trace_no_splash env w) as Hq0.
  set (w0 := ensured_world env w) in *.
  assert (∃ t, trace (show_gui env w0).2 = trace w0 ++ t
               ∧ Forall (λ e, is_splash_event e = false) t) as (t & Htr & Hq).
  { destruct (_state w0 !! "currentServer") as [v0|] eqn:Hcur;
      [|by apply show_gui_no_splash_fresh].
    destruct (Htyped v0 Hcur) as [s ->].
    destruct (proxy_show env s) as [e|] eqn:Hshow.
    - destruct (decide (e = IOError)) as [->|He].
      + rewrite (show_gui_stale _ _ _ Hcur Hshow).
        destruct (show_gui_no_splash_fresh env (popped_world s w0) Hqt) as (t & Htr & Hq);
          [apply lookup_delete_eq|].
        exists ([EProxyShow s (settings w0); EStatePop "currentServer"] ++ t).
        split; [rewrite Htr; simpl; by rewrite <- app_assoc|].
        apply Forall_app. split; [by repeat constructor | done].
      + rewrite (show_gui_raises _ _ _ _ Hcur Hshow He).
        eexists. split; [reflexivity | by repeat constructor].
    - rewrite (show_gui_reuse _ _ _ Hcur Hshow).
      eexists. split; [reflexivity | by repeat constructor]. }
  rewrite (added_app _ _ (ensured_trace env w ++ t))
    by (by rewrite Htr, Htr0, <- app_assoc).
  assert (Forall (λ e, is_splash_event e = false) (ensured_trace env w ++ t)) as Hall
    by (apply Forall_app; by split).
  clear -Hall. induction Hall as [|e l He _ IH]; [done|].
  rewrite filter_cons_False; [done | by rewrite He].
Qed.

Lemma show_without_qt_witness :
  filter (λ e, is_splash_event e = true) (added initial (show blender_env initial).2) = [].
Proof.
  apply (show_without_qt blender_env initial).
  - exists []. reflexivity.
  - reflexivity.
Defined.
